(** * Split view of inye-tunnel: layout, focus and split-group cards

    A shallow embedding of three web components of the client:
    - [SplitPaneContainer] (split-pane-container): the divider drag state
      machine, the capture-phase focus arbiter and the refit of terminals;
    - [CompactSessionCard] (session-list/compact-session-card.ts): the
      drag-and-drop protocol that requests a split, and session deletion;
    - [SplitGroupCard] (split-group-card, the two-mode version): the active
      and the persisted projection of a split group.

    JavaScript numbers are IEEE 754 binary64 values; they are modelled by
    Rocq's primitive floats, whose operations are the same binary64
    operations.  Event handlers are functions on an explicit state; what a
    handler raises is recorded as a list of effects. *)

From Stdlib Require Import Floats ZArith List String Bool Lia.
Import ListNotations.

Set Warnings "-inexact-float".

Open Scope bool_scope.
Open Scope string_scope.
Open Scope list_scope.

(** ** JavaScript numbers *)

Module JS.

Local Open Scope float_scope.

Definition is_neg_zero (f : float) : bool :=
  match classify f with NZero => true | _ => false end.

Definition is_pos_zero (f : float) : bool :=
  match classify f with PZero => true | _ => false end.

(** [Math.max(a, b)]: NaN if either argument is NaN; [+0] is larger than
    [-0]; otherwise the larger argument, the first one on a tie. *)
Definition Math_max (a b : float) : float :=
  if is_nan a || is_nan b then nan
  else if is_pos_zero b && is_neg_zero a then b
  else if a <? b then b else a.

(** [Math.min(a, b)]: NaN if either argument is NaN; [-0] is smaller than
    [+0]; otherwise the smaller argument, the first one on a tie. *)
Definition Math_min (a b : float) : float :=
  if is_nan a || is_nan b then nan
  else if is_neg_zero b && is_pos_zero a then b
  else if b <? a then b else a.

(** [clamp(x, lo, hi)], read the usual way: [x] is first cut at [hi] from
    above, then at [lo] from below. *)
Definition clamp (x lo hi : float) : float :=
  Math_max lo (Math_min hi x).

(** Neither a finite number nor a zero: NaN or an infinity, read off the
    IEEE 754 datum of the number. *)
Definition SFnonfinite (s : spec_float) : bool :=
  match s with
  | S754_nan | S754_infinity _ => true
  | _ => false
  end.

Definition nonfinite (f : float) : Prop := SFnonfinite (Prim2SF f) = true.

(** [Object.is(a, b)] on numbers: NaN is itself, and the two zeros differ. *)
Definition Object_is (a b : float) : bool :=
  (is_nan a && is_nan b)
  || ((a =? b) && Bool.eqb (is_neg_zero a) (is_neg_zero b)).

(** Lit's default [hasChanged] for a reactive property:
    [!Object.is(value, old)]. *)
Definition notEqual (value old : float) : bool :=
  negb (Object_is value old).

End JS.

(** ** Sessions and custom events *)

(** The fields of [Session] (shared/types) that the components read. *)
Record Session := mkSession {
  id : string;
  name : string;
  status : string
}.

(** The [detail] payloads of the custom events raised by the components. *)
Inductive Detail :=
| IndexDetail (index : nat)
| RatioDetail (ratio : float)
| SessionIdDetail (sessionId : string)
| GroupIdDetail (groupId : string)
| SplitDetail (draggedSessionId targetSessionId : string)
| ErrorDetail (sessionId error : string).

(** [new CustomEvent(type, { detail, bubbles, composed })]. *)
Record CustomEvent := mkEvent {
  type : string;
  detail : Detail;
  bubbles : bool;
  composed : bool
}.

(** Every event of these components is created bubbling and composed. *)
Definition customEvent (ty : string) (d : Detail) : CustomEvent :=
  mkEvent ty d true true.

(** ** The split pane container *)

Module SplitPaneContainer.

Import JS.

(** [SPLIT_PANE] of utils/constants: the container only reads these three
    fields; the values are the build's, so the model takes them as a
    parameter. *)
Record SplitPaneConstants := mkConstants {
  DEFAULT_RATIO : float;
  DIVIDER_WIDTH : float;
  MIN_WIDTH : float
}.

Record SplitPane := mkPane {
  sessionId : string;
  session : option Session
}.

(** The DOM as the handlers see it: [this.querySelector(selector)] gives an
    element or null; an element answers [contains(node)] and has a
    [clientWidth]. *)
Definition Node := nat.

Record Element := mkElement {
  contains : Node -> bool;
  clientWidth : float
}.

Definition Dom := string -> option Element.

(** The fields of the component. *)
Record Component := mkComponent {
  panes : list (option SplitPane);
  activePaneIndex : Z;
  splitRatio : float;
  isDragging : bool;
  dragStartX : float;
  dragStartRatio : float;
  containerWidth : float
}.

(** The three bound handlers kept for listener cleanup. *)
Inductive Bound := boundMouseMove | boundMouseUp | boundPaneMouseDown.

Record Listener := mkListener {
  l_type : string;
  l_callback : Bound;
  l_capture : bool
}.

(** What a handler does to the outside: an event dispatched on the
    component, or [refitAllTerminals]'s request for an animation frame. *)
Inductive Effect :=
| Dispatched (e : CustomEvent)
| RefitRequested.

(** The component together with what it shares with the page: the listeners
    on [document], the capture listener on the element itself, the two
    styles of [document.body], the effects so far (oldest first), and Lit's
    [hasUpdated]: whether the element has been through its first update.
    Lit starts updating an element at its first [connectedCallback]. *)
Record World := mkWorld {
  this : Component;
  documentListeners : list Listener;
  ownListeners : list Listener;
  userSelect : string;
  cursor : string;
  trace : list Effect;
  hasUpdated : bool
}.

Definition set_splitRatio (r : float) (c : Component) : Component :=
  mkComponent (panes c) (activePaneIndex c) r (isDragging c)
              (dragStartX c) (dragStartRatio c) (containerWidth c).

Definition set_isDragging (b : bool) (c : Component) : Component :=
  mkComponent (panes c) (activePaneIndex c) (splitRatio c) b
              (dragStartX c) (dragStartRatio c) (containerWidth c).

Definition set_activePaneIndex (i : Z) (c : Component) : Component :=
  mkComponent (panes c) i (splitRatio c) (isDragging c)
              (dragStartX c) (dragStartRatio c) (containerWidth c).

Definition set_panes (ps : list (option SplitPane)) (c : Component) : Component :=
  mkComponent ps (activePaneIndex c) (splitRatio c) (isDragging c)
              (dragStartX c) (dragStartRatio c) (containerWidth c).

Definition set_this (c : Component) (w : World) : World :=
  mkWorld c (documentListeners w) (ownListeners w) (userSelect w) (cursor w)
          (trace w) (hasUpdated w).

Definition emit (e : Effect) (w : World) : World :=
  mkWorld (this w) (documentListeners w) (ownListeners w) (userSelect w)
          (cursor w) (trace w ++ [e]) (hasUpdated w).

Definition set_hasUpdated (b : bool) (w : World) : World :=
  mkWorld (this w) (documentListeners w) (ownListeners w) (userSelect w)
          (cursor w) (trace w) b.

(** *** Listener lists *)

Definition Bound_eqb (a b : Bound) : bool :=
  match a, b with
  | boundMouseMove, boundMouseMove => true
  | boundMouseUp, boundMouseUp => true
  | boundPaneMouseDown, boundPaneMouseDown => true
  | _, _ => false
  end.

Definition Listener_eqb (a b : Listener) : bool :=
  String.eqb (l_type a) (l_type b) && Bound_eqb (l_callback a) (l_callback b)
  && Bool.eqb (l_capture a) (l_capture b).

(** [addEventListener]: a listener with the same type, callback and capture
    flag as one already in the list is not added again. *)
Definition addEventListener (l : Listener) (ls : list Listener) : list Listener :=
  if existsb (Listener_eqb l) ls then ls else ls ++ [l].

(** [removeEventListener]: the matching listener, if any, is removed. *)
Fixpoint removeEventListener (l : Listener) (ls : list Listener) : list Listener :=
  match ls with
  | [] => []
  | x :: rest =>
      if Listener_eqb l x then rest else x :: removeEventListener l rest
  end.

Definition mousemoveListener : Listener := mkListener "mousemove" boundMouseMove false.
Definition mouseupListener : Listener := mkListener "mouseup" boundMouseUp false.
Definition mousedownListener : Listener := mkListener "mousedown" boundPaneMouseDown true.

Section Handlers.

Variable SPLIT_PANE : SplitPaneConstants.

(** The component as constructed. *)
Definition initialComponent : Component :=
  mkComponent [] 0%Z (DEFAULT_RATIO SPLIT_PANE) false 0%float 0%float 0%float.

Definition initialWorld : World :=
  mkWorld initialComponent [] [] "" "" [] false.

Definition connectedCallback (w : World) : World :=
  mkWorld (this w) (documentListeners w)
          (addEventListener mousedownListener (ownListeners w))
          (userSelect w) (cursor w) (trace w) (hasUpdated w).

Definition disconnectedCallback (w : World) : World :=
  mkWorld (this w)
          (removeEventListener mouseupListener
             (removeEventListener mousemoveListener (documentListeners w)))
          (removeEventListener mousedownListener (ownListeners w))
          (userSelect w) (cursor w) (trace w) (hasUpdated w).

Definition refitAllTerminals (w : World) : World := emit RefitRequested w.

(** The selector of a pane's element, [`#split-pane-${sessionId}`]. *)
Definition paneSelector (sid : string) : string := "#split-pane-" ++ sid.

(** [updated(changedProperties)]; the argument is the list of the names of
    the changed properties. *)
Definition updated (changedProperties : list string) (w : World) : World :=
  if existsb (String.eqb "splitRatio") changedProperties
     && negb (isDragging (this w))
  then refitAllTerminals w
  else w.

(** The loop of [handlePaneMouseDown] from index [i] on. *)
Fixpoint paneLoop (dom : Dom) (active : Z) (target : Node) (i : nat)
         (ps : list (option SplitPane)) : list CustomEvent :=
  match ps with
  | [] => []
  | None :: rest => paneLoop dom active target (S i) rest
  | Some pane :: rest =>
      match dom (paneSelector (sessionId pane)) with
      | Some paneEl =>
          if contains paneEl target then
            if negb (Z.eqb active (Z.of_nat i))
            then [customEvent "pane-focus" (IndexDetail i)]
            else []
          else paneLoop dom active target (S i) rest
      | None => paneLoop dom active target (S i) rest
      end
  end.

(** [handlePaneMouseDown(e)] with [target = e.target]: the events it
    dispatches. *)
Definition handlePaneMouseDown (dom : Dom) (target : Node) (c : Component)
  : list CustomEvent :=
  match dom "#split-divider" with
  | Some divider =>
      if contains divider target then []
      else paneLoop dom (activePaneIndex c) target 0 (panes c)
  | None => paneLoop dom (activePaneIndex c) target 0 (panes c)
  end.

(** [handleDividerMouseDown(e)] with [clientX = e.clientX]. *)
Definition handleDividerMouseDown (dom : Dom) (clientX : float) (w : World)
  : World :=
  let c := this w in
  let width :=
    match dom "#split-pane-root" with
    | Some container => (clientWidth container - DIVIDER_WIDTH SPLIT_PANE)%float
    | None => containerWidth c
    end in
  mkWorld
    (mkComponent (panes c) (activePaneIndex c) (splitRatio c) true
                 clientX (splitRatio c) width)
    (addEventListener mouseupListener
       (addEventListener mousemoveListener (documentListeners w)))
    (ownListeners w) "none" "col-resize" (trace w) (hasUpdated w).

(** [handleMouseMove(e)] with [clientX = e.clientX]. *)
Definition handleMouseMove (clientX : float) (c : Component) : Component :=
  if negb (isDragging c) then c
  else
    let deltaX := (clientX - dragStartX c)%float in
    let deltaRatio := (deltaX / containerWidth c)%float in
    let newRatio := (dragStartRatio c + deltaRatio)%float in
    let minRatio := (MIN_WIDTH SPLIT_PANE / containerWidth c)%float in
    let maxRatio := (1 - minRatio)%float in
    let newRatio := Math_max minRatio (Math_min maxRatio newRatio) in
    set_splitRatio newRatio c.

(** [handleMouseUp()]. *)
Definition handleMouseUp (w : World) : World :=
  if negb (isDragging (this w)) then w
  else
    let c := set_isDragging false (this w) in
    let w1 :=
      mkWorld c
              (removeEventListener mouseupListener
                 (removeEventListener mousemoveListener (documentListeners w)))
              (ownListeners w) "" "" (trace w) (hasUpdated w) in
    let w2 :=
      emit (Dispatched (customEvent "split-resize" (RatioDetail (splitRatio c)))) w1 in
    refitAllTerminals w2.

(** [forwardEvent(e)]: the clone that is dispatched. *)
Definition forwardEvent (e : CustomEvent) : CustomEvent :=
  customEvent (type e) (detail e).

(** *** The page around the component

    What the page can do to the component: mouse events, the element
    entering and leaving the document, and the owner assigning the public
    properties. *)
Inductive Input :=
| DividerMouseDown (dom : Dom) (clientX : float)
| ContainerMouseDown (dom : Dom) (target : Node)
| DocumentMouseMove (clientX : float)
| DocumentMouseUp
| Connected
| Disconnected
| AssignSplitRatio (r : float)
| AssignActivePaneIndex (i : Z)
| AssignPanes (ps : list (option SplitPane)).

(** A listener is called only while it is in the listener list. *)
Definition registered (l : Listener) (ls : list Listener) : bool :=
  existsb (Listener_eqb l) ls.

Fixpoint dispatchAll (evs : list CustomEvent) (w : World) : World :=
  match evs with
  | [] => w
  | e :: rest => dispatchAll rest (emit (Dispatched e) w)
  end.

(** The handler that an input reaches, if any. *)
Definition deliver (i : Input) (w : World) : World :=
  match i with
  | DividerMouseDown dom clientX => handleDividerMouseDown dom clientX w
  | ContainerMouseDown dom target =>
      if registered mousedownListener (ownListeners w)
      then dispatchAll (handlePaneMouseDown dom target (this w)) w
      else w
  | DocumentMouseMove clientX =>
      if registered mousemoveListener (documentListeners w)
      then set_this (handleMouseMove clientX (this w)) w
      else w
  | DocumentMouseUp =>
      if registered mouseupListener (documentListeners w)
      then handleMouseUp w
      else w
  | Connected => connectedCallback w
  | Disconnected => disconnectedCallback w
  | AssignSplitRatio r => set_this (set_splitRatio r (this w)) w
  | AssignActivePaneIndex i => set_this (set_activePaneIndex i (this w)) w
  | AssignPanes ps => set_this (set_panes ps (this w)) w
  end.

(** The names of the reactive properties that an input changed, as Lit
    collects them for [updated]: [splitRatio] and [activePaneIndex] by
    [notEqual], [isDragging] likewise; an assignment of [panes] always
    counts (a new array). *)
Definition changedProperties (i : Input) (before after : Component) : list string :=
  (match i with AssignPanes _ => ["panes"] | _ => [] end)
  ++ (if negb (Z.eqb (activePaneIndex before) (activePaneIndex after))
      then ["activePaneIndex"] else [])
  ++ (if notEqual (splitRatio after) (splitRatio before)
      then ["splitRatio"] else [])
  ++ (if negb (Bool.eqb (isDragging before) (isDragging after))
      then ["isDragging"] else []).

(** The reactive properties that the class initialises: Lit's first update
    reports every one of them as changed. *)
Definition initialProperties : list string :=
  ["panes"; "activePaneIndex"; "splitRatio"; "showBackButton";
   "showSidebarToggle"; "sidebarCollapsed"; "disableFocusManagement";
   "keyboardCaptureActive"; "isDragging"].

(** Lit's first update, which follows the first [connectedCallback]. *)
Definition firstUpdate (w : World) : World :=
  updated initialProperties (set_hasUpdated true w).

(** One turn of the event loop: the handler runs, then Lit's update cycle.
    An element that has been through its first update is updated again when
    a reactive property changed. Before that Lit holds every update back:
    the changes wait for the first update, which the first
    [connectedCallback] starts. *)
Definition step (i : Input) (w : World) : World :=
  let w' := deliver i w in
  if hasUpdated w then
    match changedProperties i (this w) (this w') with
    | [] => w'
    | changed => updated changed w'
    end
  else
    match i with
    | Connected => firstUpdate w'
    | _ => w'
    end.

Fixpoint run (inputs : list Input) (w : World) : World :=
  match inputs with
  | [] => w
  | i :: rest => run rest (step i w)
  end.

End Handlers.

End SplitPaneContainer.

(** ** The compact session card *)

Module CompactSessionCard.

(** The transfer key of the split gesture. *)
Definition sessionIdFormat : string := "application/vt-session-id".

(** A [DataTransfer]: the stored data by format, and the two effect fields. *)
Record DataTransfer := mkDataTransfer {
  items : list (string * string);
  effectAllowed : string;
  dropEffect : string
}.

(** A [DragEvent]: [dataTransfer] may be null. *)
Record DragEvent := mkDragEvent {
  dataTransfer : option DataTransfer
}.

(** [dataTransfer.getData(format)]: the empty string when nothing is stored
    under [format]. *)
Fixpoint getData (format : string) (its : list (string * string)) : string :=
  match its with
  | [] => ""
  | (k, v) :: rest => if String.eqb k format then v else getData format rest
  end.

(** [dataTransfer.setData(format, data)]. *)
Fixpoint setData (format data : string) (its : list (string * string))
  : list (string * string) :=
  match its with
  | [] => [(format, data)]
  | (k, v) :: rest =>
      if String.eqb k format then (k, data) :: rest
      else (k, v) :: setData format data rest
  end.

(** [dataTransfer.types]. *)
Definition types (dt : DataTransfer) : list string := map fst (items dt).

Definition includes (x : string) (xs : list string) : bool :=
  existsb (String.eqb x) xs.

(** The fields of the card; [dragged] stands for the [opacity-50] class of the
    card's element. *)
Record Card := mkCard {
  session : Session;
  selected : bool;
  sessionType : string;
  isDragOver : bool;
  dragged : bool
}.

Definition set_isDragOver (b : bool) (c : Card) : Card :=
  mkCard (session c) (selected c) (sessionType c) b (dragged c).

Definition set_dragged (b : bool) (c : Card) : Card :=
  mkCard (session c) (selected c) (sessionType c) (isDragOver c) b.

(** [handleDragStart(e)]: the card and the event after the call. *)
Definition handleDragStart (e : DragEvent) (c : Card) : Card * DragEvent :=
  match dataTransfer e with
  | None => (c, e)
  | Some dt =>
      (set_dragged true c,
       mkDragEvent
         (Some (mkDataTransfer (setData sessionIdFormat (id (session c)) (items dt))
                               "move" (dropEffect dt))))
  end.

Definition handleDragEnd (c : Card) : Card := set_dragged false c.

(** [handleDragOver(e)]: the card, the event, and whether the default was
    prevented (the drop is accepted). *)
Definition handleDragOver (e : DragEvent) (c : Card) : Card * DragEvent * bool :=
  match dataTransfer e with
  | None => (c, e, false)
  | Some dt =>
      if negb (includes sessionIdFormat (types dt)) then (c, e, false)
      else
        (set_isDragOver true c,
         mkDragEvent (Some (mkDataTransfer (items dt) (effectAllowed dt) "move")),
         true)
  end.

Definition handleDragLeave (c : Card) : Card := set_isDragOver false c.

(** [e.dataTransfer?.getData('application/vt-session-id')]: [None] stands
    for undefined. *)
Definition draggedSessionId (e : DragEvent) : option string :=
  match dataTransfer e with
  | None => None
  | Some dt => Some (getData sessionIdFormat (items dt))
  end.

(** [handleDrop(e)]: the card after the call and the events dispatched. *)
Definition handleDrop (e : DragEvent) (c : Card) : Card * list CustomEvent :=
  let c' := set_isDragOver false c in
  match draggedSessionId e with
  | None => (c', [])
  | Some draggedId =>
      if String.eqb draggedId "" then (c', [])
      else if String.eqb draggedId (id (session c)) then (c', [])
      else
        (c', [customEvent "split-with-session"
                          (SplitDetail draggedId (id (session c)))])
  end.

(** The callbacks that [sessionActionService.deleteSession] may call. *)
Inductive Callback :=
| onSuccess
| onError (error : string).

(** What the card does in each callback of [handleDelete]. *)
Definition deleteCallback (c : Card) (cb : Callback) : list CustomEvent :=
  match cb with
  | onSuccess =>
      let eventType :=
        if String.eqb (status (session c)) "exited"
        then "session-cleanup" else "session-delete" in
      [customEvent eventType (SessionIdDetail (id (session c)))]
  | onError error =>
      [customEvent "session-kill-error" (ErrorDetail (id (session c)) error)]
  end.

Section Delete.

(** The external delete service: for a session, the callbacks it calls, in
    order. *)
Variable deleteSession : Session -> list Callback.

(** [handleDelete(e)]: the events dispatched while the service runs. *)
Definition handleDelete (c : Card) : list CustomEvent :=
  flat_map (deleteCallback c) (deleteSession (session c)).

End Delete.

End CompactSessionCard.

(** ** The split group card *)

Module SplitGroupCard.

Inductive Mode := active | persisted.

(** The fields of the card; a session property may be unset. *)
Record Card := mkCard {
  leftSession : option Session;
  rightSession : option Session;
  mode : Mode;
  groupId : string
}.

(** What a handler does: [None] stands for the TypeError of reading a field
    of an unset session. *)
Definition Outcome := option (list CustomEvent).

Definition handleClickLeft (c : Card) : Outcome :=
  match leftSession c with
  | Some l => Some [customEvent "split-session-focus" (SessionIdDetail (id l))]
  | None => None
  end.

Definition handleClickRight (c : Card) : Outcome :=
  match rightSession c with
  | Some r => Some [customEvent "split-session-focus" (SessionIdDetail (id r))]
  | None => None
  end.

Definition handleUnsplit (c : Card) : Outcome :=
  match leftSession c with
  | Some l => Some [customEvent "unsplit" (SessionIdDetail (id l))]
  | None => None
  end.

Definition Mode_eqb (a b : Mode) : bool :=
  match a, b with
  | active, active => true
  | persisted, persisted => true
  | _, _ => false
  end.

Definition handleRestoreClick (c : Card) : Outcome :=
  if negb (Mode_eqb (mode c) persisted) || String.eqb (groupId c) ""
  then Some []
  else Some [customEvent "restore-split-group" (GroupIdDetail (groupId c))].

Definition getGroupStatusColor (c : Card) : option string :=
  match leftSession c, rightSession c with
  | Some l, Some r =>
      let leftRunning := String.eqb (status l) "running" in
      let rightRunning := String.eqb (status r) "running" in
      if leftRunning && rightRunning then Some "bg-status-success"
      else if leftRunning || rightRunning then Some "bg-status-warning"
      else Some "bg-status-error"
  | _, _ => None
  end.

(** The elements of the rendered card that carry a click handler. *)
Inductive Control :=
| LeftName
| RightName
| UnsplitButton
| PersistedRoot.

(** What [render] yields, as far as clicks and the status dot go. *)
Record View := mkView {
  controls : list Control;
  statusClass : option string
}.

Definition renderActiveMode (c : Card) : View :=
  mkView [LeftName; RightName; UnsplitButton] None.

Definition renderPersistedMode (c : Card) : View :=
  mkView [PersistedRoot] (getGroupStatusColor c).

Definition render (c : Card) : View :=
  match leftSession c, rightSession c with
  | Some _, Some _ =>
      match mode c with
      | persisted => renderPersistedMode c
      | active => renderActiveMode c
      end
  | _, _ => mkView [] None
  end.

Definition Control_eqb (a b : Control) : bool :=
  match a, b with
  | LeftName, LeftName => true
  | RightName, RightName => true
  | UnsplitButton, UnsplitButton => true
  | PersistedRoot, PersistedRoot => true
  | _, _ => false
  end.

(** The handler bound to a control by the templates. *)
Definition handlerOf (ctl : Control) : Card -> Outcome :=
  match ctl with
  | LeftName => handleClickLeft
  | RightName => handleClickRight
  | UnsplitButton => handleUnsplit
  | PersistedRoot => handleRestoreClick
  end.

(** A click on a control: nothing happens unless the control is rendered. *)
Definition click (ctl : Control) (c : Card) : Outcome :=
  if existsb (Control_eqb ctl) (controls (render c))
  then handlerOf ctl c
  else Some [].

End SplitGroupCard.

(** * The statements' vocabulary

    Definitions that follow the words of the specification, to be compared
    with the handlers above, and the sample data of the examples. *)

Module Spec.

Import JS SplitPaneContainer.

(** The ratio of a drag that started at [startX] with [startRatio] over a
    container of [containerWidthPx], when the pointer is at [currentX]. *)
Definition dragRatio (SP : SplitPaneConstants)
           (startX startRatio containerWidthPx currentX : float) : float :=
  let minRatio := (MIN_WIDTH SP / containerWidthPx)%float in
  let maxRatio := (1 - minRatio)%float in
  clamp (startRatio + (currentX - startX) / containerWidthPx)%float
        minRatio maxRatio.

(** The target lies within the divider. *)
Definition withinDivider (dom : Dom) (target : Node) : bool :=
  match dom "#split-divider" with
  | Some divider => contains divider target
  | None => false
  end.

(** The target lies within the subtree of a pane. *)
Definition withinPane (dom : Dom) (target : Node) (p : option SplitPane) : bool :=
  match p with
  | Some pane =>
      match dom (paneSelector (sessionId pane)) with
      | Some paneEl => contains paneEl target
      | None => false
      end
  | None => false
  end.

(** The index of the first element of a list that satisfies [f]. *)
Fixpoint firstIndex {A : Type} (f : A -> bool) (l : list A) : option nat :=
  match l with
  | [] => None
  | x :: rest => if f x then Some 0 else option_map S (firstIndex f rest)
  end.

(** The index of the first pane, in order, whose subtree contains the
    target. *)
Definition firstPane (dom : Dom) (target : Node) (ps : list (option SplitPane))
  : option nat :=
  firstIndex (withinPane dom target) ps.

Definition paneFocus (index : nat) : CustomEvent :=
  customEvent "pane-focus" (IndexDetail index).

Definition splitResize (ratio : float) : CustomEvent :=
  customEvent "split-resize" (RatioDetail ratio).

(** A drag is in progress: the flag is set and the two global listeners are
    in place. *)
Definition dragInProgress (w : World) : Prop :=
  isDragging (this w) = true
  /\ documentListeners w = [mousemoveListener; mouseupListener].

(** The global listeners are in place only during a drag, once each. *)
Definition listenersPaired (w : World) : Prop :=
  documentListeners w = [] \/ dragInProgress w.

(** An input that changes the ratio between the two ends of a drag: a
    pointer move, or the owner assigning the property. *)
Definition ratioChange (i : Input) : bool :=
  match i with
  | DocumentMouseMove _ | AssignSplitRatio _ => true
  | _ => false
  end.

(** A pointer event dispatched on the document. *)
Definition pointerEvent (i : Input) : bool :=
  match i with
  | DocumentMouseMove _ | DocumentMouseUp => true
  | _ => false
  end.

Definition splitWithSession (draggedId targetId : string) : CustomEvent :=
  customEvent "split-with-session" (SplitDetail draggedId targetId).

Definition splitSessionFocus (sid : string) : CustomEvent :=
  customEvent "split-session-focus" (SessionIdDetail sid).

Definition unsplit (sid : string) : CustomEvent :=
  customEvent "unsplit" (SessionIdDetail sid).

Definition restoreSplitGroup (gid : string) : CustomEvent :=
  customEvent "restore-split-group" (GroupIdDetail gid).

(** A session is running. *)
Definition running (s : Session) : bool := String.eqb (status s) "running".

(** Sample constants and a sample page, for the examples. *)
Definition sampleConstants : SplitPaneConstants :=
  mkConstants 0.5%float 4%float 200%float.

Definition sampleSession (sid : string) : Session := mkSession sid sid "running".

Definition samplePanes : list (option SplitPane) :=
  [Some (mkPane "a" (Some (sampleSession "a")));
   Some (mkPane "b" (Some (sampleSession "b")))].

(** A page whose root is [rootWidth] wide; node 0 is the divider, node 1
    lies in the left pane, node 2 in the right pane. *)
Definition samplePage (rootWidth : float) : Dom :=
  fun selector =>
    if String.eqb selector "#split-pane-root"
    then Some (mkElement (fun _ => true) rootWidth)
    else if String.eqb selector "#split-divider"
    then Some (mkElement (Nat.eqb 0) 4%float)
    else if String.eqb selector "#split-pane-a"
    then Some (mkElement (Nat.eqb 1) 500%float)
    else if String.eqb selector "#split-pane-b"
    then Some (mkElement (Nat.eqb 2) 500%float)
    else None.

End Spec.

(** * The rest of the components

    The parts of the three components that stand beside the handlers above:
    what the container renders, what its inputs add to the trace, the
    buttons and dots of the cards, and the one-mode split group card. *)

(** ** What the container renders *)

Module SplitPaneRender.

Import SplitPaneContainer.

(** The pass-through properties of the container. *)
Record PassThrough := mkPassThrough {
  showBackButton : bool;
  showSidebarToggle : bool;
  sidebarCollapsed : bool;
  disableFocusManagement : bool;
  keyboardCaptureActive : bool
}.

(** The properties bound on a [session-view]. *)
Record SessionViewProps := mkSessionViewProps {
  sv_session : option Session;
  sv_showBackButton : bool;
  sv_showSidebarToggle : bool;
  sv_sidebarCollapsed : bool;
  sv_disableFocusManagement : bool;
  sv_keyboardCaptureActive : bool;
  sv_containedMode : bool
}.

(** A pane element: its id, whether it has the class [split-pane-active],
    its width in percent (the right pane has none: it takes the rest), the
    key of its content and the properties of its [session-view]. *)
Record PaneView := mkPaneView {
  pv_id : string;
  pv_active : bool;
  pv_widthPercent : option float;
  pv_key : string;
  pv_view : SessionViewProps
}.

(** The rendered split: left pane, divider (with its class [dragging] and
    its width in pixels), right pane. *)
Record SplitView := mkSplitView {
  leftView : PaneView;
  dividerDragging : bool;
  dividerWidthPx : float;
  rightView : PaneView
}.

(** The events of a [session-view] that the template forwards. *)
Definition forwardedEvents : list string :=
  ["navigate-to-list"; "toggle-sidebar"; "create-session";
   "session-status-changed"; "open-settings"; "capture-toggled"].

(** [render()]: [None] stands for the empty template. *)
Definition render (SP : SplitPaneConstants) (pt : PassThrough) (c : Component)
  : option SplitView :=
  if Nat.ltb (List.length (panes c)) 2 then None
  else
    match nth_error (panes c) 0, nth_error (panes c) 1 with
    | Some (Some leftPane), Some (Some rightPane) =>
        let leftWidthPercent := (splitRatio c * 100)%float in
        Some
          (mkSplitView
             (mkPaneView
                ("split-pane-" ++ sessionId leftPane)
                (Z.eqb (activePaneIndex c) 0)
                (Some leftWidthPercent)
                (sessionId leftPane)
                (mkSessionViewProps
                   (session leftPane) (showBackButton pt)
                   (showSidebarToggle pt) (sidebarCollapsed pt)
                   (disableFocusManagement pt)
                   (Z.eqb (activePaneIndex c) 0 && keyboardCaptureActive pt)
                   true))
             (isDragging c)
             (DIVIDER_WIDTH SP)
             (mkPaneView
                ("split-pane-" ++ sessionId rightPane)
                (Z.eqb (activePaneIndex c) 1)
                None
                (sessionId rightPane)
                (mkSessionViewProps
                   (session rightPane) (showBackButton pt)
                   false (sidebarCollapsed pt)
                   (disableFocusManagement pt)
                   (Z.eqb (activePaneIndex c) 1 && keyboardCaptureActive pt)
                   true)))
    | _, _ => None
    end.

End SplitPaneRender.

(** ** What the inputs add to the trace *)

Module Traces.

Import JS SplitPaneContainer.

(** What one turn of the event loop adds to the trace. *)
Definition stepEffects (i : Input) (w : World) : list Effect :=
  match i with
  | ContainerMouseDown dom target =>
      if registered mousedownListener (ownListeners w)
      then map Dispatched (handlePaneMouseDown dom target (this w))
      else []
  | DocumentMouseUp =>
      if registered mouseupListener (documentListeners w)
         && isDragging (this w)
      then [Dispatched
              (customEvent "split-resize" (RatioDetail (splitRatio (this w))));
            RefitRequested]
      else []
  | Connected =>
      if negb (hasUpdated w) && negb (isDragging (this w))
      then [RefitRequested]
      else []
  | AssignSplitRatio r =>
      if hasUpdated w && notEqual r (splitRatio (this w))
         && negb (isDragging (this w))
      then [RefitRequested]
      else []
  | _ => []
  end.

Definition isSplitResize (e : Effect) : bool :=
  match e with
  | Dispatched ev => String.eqb (type ev) "split-resize"
  | RefitRequested => false
  end.

Definition countSplitResize (t : list Effect) : nat :=
  List.length (filter isSplitResize t).

(** Every [split-resize] of the trace has the refit request right after
    it. *)
Fixpoint resizeThenRefit (t : list Effect) : bool :=
  match t with
  | [] => true
  | e :: rest =>
      if isSplitResize e
      then match rest with
           | RefitRequested :: _ => resizeThenRefit rest
           | _ => false
           end
      else resizeThenRefit rest
  end.

Definition isDividerDown (i : Input) : bool :=
  match i with DividerMouseDown _ _ => true | _ => false end.

Definition isRelease (i : Input) : bool :=
  match i with DocumentMouseUp => true | _ => false end.

Definition countInputs (f : Input -> bool) (inputs : list Input) : nat :=
  List.length (filter f inputs).

(** One for a set drag flag, zero otherwise. *)
Definition dragFlag (w : World) : nat := if isDragging (this w) then 1 else 0.

(** The inputs that never raise anything. *)
Definition quietInput (i : Input) : bool :=
  match i with
  | ContainerMouseDown _ _ | DocumentMouseUp | Connected
  | AssignSplitRatio _ => false
  | _ => true
  end.

(** The styles that a drag puts on [document.body]. *)
Definition dragStyles (w : World) : Prop :=
  userSelect w = "none" /\ cursor w = "col-resize".

(** An assignment of [activePaneIndex] or of [panes] by the owner. *)
Definition assignsPanes (i : Input) : bool :=
  match i with
  | AssignActivePaneIndex _ | AssignPanes _ => true
  | _ => false
  end.

(** The capture listener on the element is in place or not, once. *)
Definition connectionPaired (w : World) : Prop :=
  ownListeners w = [] \/ ownListeners w = [mousedownListener].

Definition paneFound (dom : Dom) (p : SplitPane) : bool :=
  match dom (paneSelector (sessionId p)) with
  | Some _ => true
  | None => false
  end.

(** The animation-frame callback of [refitAllTerminals] as it runs: the
    loop reads [pane.sessionId] without a test of the pane, so an undefined
    pane ends it with a TypeError.  The result is the sessions whose
    terminal was resized, in order, and whether the loop ended that way. *)
Fixpoint refitCallback (dom : Dom) (ps : list (option SplitPane))
  : list string * bool :=
  match ps with
  | [] => ([], false)
  | None :: _ => ([], true)
  | Some pane :: rest =>
      let (resized, thrown) := refitCallback dom rest in
      (if paneFound dom pane then sessionId pane :: resized else resized,
       thrown)
  end.

End Traces.

(** ** The buttons and dots of the compact session card *)

Module CompactSessionCardView.

Import CompactSessionCard.

(** [renderDeleteButton()]: the class and the title of the button; its click
    handler is [handleDelete]. *)
Definition renderDeleteButton (c : Card) : string * string :=
  let isExited := String.eqb (status (session c)) "exited" in
  let buttonClass :=
    if isExited
    then "btn-ghost text-text-muted p-1.5 rounded-md transition-all hover:text-status-warning hover:bg-bg-elevated hover:shadow-sm"
    else "btn-ghost text-text-muted p-1.5 rounded-md transition-all hover:text-status-error hover:bg-bg-elevated hover:shadow-sm hover:scale-110" in
  let buttonTitle := if isExited then "Clean up session" else "Kill Session" in
  (buttonClass, buttonTitle).

(** [renderStatusIndicator()]: the colour class of the dot. *)
Definition renderStatusIndicator (c : Card) : string :=
  if String.eqb (status (session c)) "exited"
  then "bg-status-warning"
  else "bg-status-success".

End CompactSessionCardView.

(** ** The one-mode split group card *)

Module SplitGroupCardV1.

(** The card of session-list/split-group-card.ts: two sessions, no mode. *)
Record Card := mkCard {
  leftSession : option Session;
  rightSession : option Session
}.

Definition Outcome := option (list CustomEvent).

Definition handleClickLeft (c : Card) : Outcome :=
  match leftSession c with
  | Some l => Some [customEvent "split-session-focus" (SessionIdDetail (id l))]
  | None => None
  end.

Definition handleClickRight (c : Card) : Outcome :=
  match rightSession c with
  | Some r => Some [customEvent "split-session-focus" (SessionIdDetail (id r))]
  | None => None
  end.

Definition handleUnsplit (c : Card) : Outcome :=
  match leftSession c with
  | Some l => Some [customEvent "unsplit" (SessionIdDetail (id l))]
  | None => None
  end.

(** The elements of the rendered card that carry a click handler. *)
Inductive Control :=
| LeftName
| RightName
| UnsplitButton.

(** The controls of the rendered card, in template order. *)
Definition render (c : Card) : list Control :=
  match leftSession c, rightSession c with
  | Some _, Some _ => [LeftName; RightName; UnsplitButton]
  | _, _ => []
  end.

Definition Control_eqb (a b : Control) : bool :=
  match a, b with
  | LeftName, LeftName => true
  | RightName, RightName => true
  | UnsplitButton, UnsplitButton => true
  | _, _ => false
  end.

Definition handlerOf (ctl : Control) : Card -> Outcome :=
  match ctl with
  | LeftName => handleClickLeft
  | RightName => handleClickRight
  | UnsplitButton => handleUnsplit
  end.

Definition click (ctl : Control) (c : Card) : Outcome :=
  if existsb (Control_eqb ctl) (render c)
  then handlerOf ctl c
  else Some [].

(** The same control and the same sessions on the two-mode card. *)
Definition sameControl (ctl : Control) : SplitGroupCard.Control :=
  match ctl with
  | LeftName => SplitGroupCard.LeftName
  | RightName => SplitGroupCard.RightName
  | UnsplitButton => SplitGroupCard.UnsplitButton
  end.

Definition onTwoModeCard (c : Card) (m : SplitGroupCard.Mode) (g : string)
  : SplitGroupCard.Card :=
  SplitGroupCard.mkCard (leftSession c) (rightSession c) m g.

End SplitGroupCardV1.

(** * Properties *)

(** ** Order facts on binary64 numbers *)

Section FloatOrder.

Import JS.
Open Scope float_scope.

Lemma SFcompare_Eq (a b : spec_float) :
  SFcompare a b = Some Eq ->
  a = b \/ (exists s1 s2, a = S754_zero s1 /\ b = S754_zero s2).
Proof.
  destruct a as [sa|sa| |sa ma ea], b as [sb|sb| |sb mb eb]; cbn;
    try discriminate; try (destruct sa; discriminate);
    try (destruct sb; discriminate).
  - intros _. right. eauto.
  - destruct sa, sb; intros H; try discriminate; now left.
  - destruct sa, sb; try discriminate;
      destruct (Z.compare ea eb) eqn:He; try discriminate;
      apply Z.compare_eq in He; subst eb; intros H; injection H as H.
    + destruct (Pos.compare_cont Eq ma mb) eqn:Hm; try discriminate.
      apply Pos.compare_eq in Hm. subst. now left.
    + apply Pos.compare_eq in H. subst. now left.
Qed.

Lemma SFcompare_defined (a b : spec_float) (c : comparison) :
  SFcompare a b = Some c ->
  SFcompare a a = Some Eq /\ SFcompare b b = Some Eq.
Proof.
  intros H.
  assert (R : forall x, x <> S754_nan -> SFcompare x x = Some Eq).
  { intros [s|s| |s m e] Hx; cbn; try reflexivity; try congruence.
    - destruct s; reflexivity.
    - destruct s; rewrite Z.compare_refl;
        change (Pos.compare_cont Eq m m) with (Pos.compare m m);
        rewrite Pos.compare_refl; reflexivity. }
  split; apply R; intros E; rewrite E in H; [|destruct a]; discriminate.
Qed.

(** [a <= b] holds only between numbers, and then [a < b] or the two compare
    equal. *)
Lemma leb_cases (a b : float) :
  (a <=? b) = true ->
  is_nan a = false /\ is_nan b = false /\
  ((a <? b) = true \/ SFcompare (Prim2SF a) (Prim2SF b) = Some Eq).
Proof.
  intros H. unfold is_nan. rewrite FloatAxioms.leb_spec in H.
  rewrite FloatAxioms.ltb_spec, !FloatAxioms.eqb_spec.
  unfold SFleb in H. unfold SFltb, SFeqb.
  destruct (SFcompare (Prim2SF a) (Prim2SF b)) as [c|] eqn:Hc; [|discriminate].
  destruct (SFcompare_defined _ _ _ Hc) as [Ha Hb]. rewrite Ha, Hb.
  destruct c; try discriminate; auto.
Qed.

Lemma nonzero_classify (x : float) :
  is_zero x = false -> is_neg_zero x = false /\ is_pos_zero x = false.
Proof.
  intros H. unfold is_zero in H. rewrite FloatAxioms.eqb_spec in H.
  unfold is_neg_zero, is_pos_zero. rewrite FloatAxioms.classify_spec.
  destruct (Prim2SF x) as [s|s| |s m e]; cbn in *.
  - discriminate.
  - destruct s; auto.
  - auto.
  - destruct s;
      match goal with |- context [if ?c then _ else _] => destruct c end; auto.
Qed.

Lemma compare_Eq_nonzero (a b : float) :
  SFcompare (Prim2SF a) (Prim2SF b) = Some Eq ->
  (is_zero a = false \/ is_zero b = false) -> a = b.
Proof.
  intros H Hz. apply SFcompare_Eq in H. destruct H as [H|(s1 & s2 & H1 & H2)].
  - now apply Prim2SF_inj.
  - exfalso. unfold is_zero in Hz. rewrite !FloatAxioms.eqb_spec, H1, H2 in Hz.
    destruct Hz as [Hz|Hz]; [destruct s1|destruct s2]; discriminate.
Qed.

(** A number other than zero that lies between the bounds is left alone. *)
Lemma clamp_within (x lo hi : float) :
  (lo <=? x) = true -> (x <=? hi) = true -> is_zero x = false ->
  clamp x lo hi = x.
Proof.
  intros Hlo Hhi Hz.
  destruct (leb_cases _ _ Hlo) as (Nlo & Nx & Clo).
  destruct (leb_cases _ _ Hhi) as (_ & Nhi & Chi).
  destruct (nonzero_classify _ Hz) as [Znx Zpx].
  assert (Hmin : Math_min hi x = x).
  { unfold Math_min. rewrite Nhi, Nx, Znx. cbn.
    destruct Chi as [Chi|Chi]; [now rewrite Chi|].
    apply compare_Eq_nonzero in Chi; [|now left]. subst hi.
    now destruct (x <? x). }
  unfold clamp. rewrite Hmin. unfold Math_max. rewrite Nlo, Nx, Zpx. cbn.
  destruct Clo as [Clo|Clo]; [now rewrite Clo|].
  apply compare_Eq_nonzero in Clo; [|now right]. subst lo.
  now destruct (x <? x).
Qed.

Lemma leb_refl (a : float) : is_nan a = false -> (a <=? a) = true.
Proof.
  unfold is_nan. rewrite FloatAxioms.leb_spec, FloatAxioms.eqb_spec.
  unfold SFleb, SFeqb.
  now destruct (SFcompare (Prim2SF a) (Prim2SF a)) as [[]|].
Qed.

Lemma ltb_leb (a b : float) : (a <? b) = true -> (a <=? b) = true.
Proof.
  rewrite FloatAxioms.leb_spec, FloatAxioms.ltb_spec.
  unfold SFleb, SFltb.
  now destruct (SFcompare (Prim2SF a) (Prim2SF b)) as [[]|].
Qed.

Lemma zeros_leb (a b : float) :
  is_neg_zero a = true -> is_pos_zero b = true -> (a <=? b) = true.
Proof.
  unfold is_neg_zero, is_pos_zero.
  rewrite FloatAxioms.leb_spec, !FloatAxioms.classify_spec.
  destruct (Prim2SF a) as [sa|sa| |sa ma ea], (Prim2SF b) as [sb|sb| |sb mb eb];
    cbn; try reflexivity; try discriminate;
    repeat match goal with
           | |- context [if ?c then _ else _] => destruct c
           end; discriminate.
Qed.

(** [Math.min] of two numbers is one of them and is at most the first. *)
Lemma Math_min_cases (a b : float) :
  is_nan a = false -> is_nan b = false ->
  (Math_min a b = a \/ Math_min a b = b) /\ (Math_min a b <=? a) = true.
Proof.
  intros Na Nb. unfold Math_min. rewrite Na, Nb. cbn.
  destruct (is_neg_zero b && is_pos_zero a) eqn:Z.
  - apply andb_prop in Z. split; [now right|]. now apply zeros_leb.
  - destruct (b <? a) eqn:L.
    + split; [now right|]. now apply ltb_leb.
    + split; [now left|]. now apply leb_refl.
Qed.

(** [Math.max] of two numbers is one of them and is at least the first. *)
Lemma Math_max_cases (a b : float) :
  is_nan a = false -> is_nan b = false ->
  (Math_max a b = a \/ Math_max a b = b) /\ (a <=? Math_max a b) = true.
Proof.
  intros Na Nb. unfold Math_max. rewrite Na, Nb. cbn.
  destruct (is_pos_zero b && is_neg_zero a) eqn:Z.
  - apply andb_prop in Z. split; [now right|]. now apply zeros_leb.
  - destruct (a <? b) eqn:L.
    + split; [now right|]. now apply ltb_leb.
    + split; [now left|]. now apply leb_refl.
Qed.

(** Between ordered bounds the clamp of a number lies within the bounds. *)
Lemma clamp_bounds (x lo hi : float) :
  (lo <=? hi) = true -> is_nan x = false ->
  (lo <=? clamp x lo hi) = true /\ (clamp x lo hi <=? hi) = true.
Proof.
  intros Hb Nx. destruct (leb_cases _ _ Hb) as (Nlo & Nhi & _).
  destruct (Math_min_cases hi x Nhi Nx) as [Cm Lm].
  assert (Nm : is_nan (Math_min hi x) = false)
    by (destruct Cm as [-> | ->]; assumption).
  destruct (Math_max_cases lo (Math_min hi x) Nlo Nm) as [Cr Lr].
  unfold clamp. split; [exact Lr|].
  destruct Cr as [-> | ->]; assumption.
Qed.

(** *** Division by zero *)

Lemma nonfinite_nan : nonfinite nan.
Proof. reflexivity. Qed.

Lemma is_zero_SF (y : float) :
  is_zero y = true -> exists s, Prim2SF y = S754_zero s.
Proof.
  unfold is_zero. rewrite FloatAxioms.eqb_spec.
  change (Prim2SF 0) with (S754_zero false).
  destruct (Prim2SF y) as [s|s| |s m e]; cbn; try discriminate; eauto;
    destruct s; discriminate.
Qed.

Lemma div_zero_nonfinite (x y : float) : is_zero y = true -> nonfinite (x / y).
Proof.
  intros H. destruct (is_zero_SF y H) as [s Hs].
  unfold nonfinite. rewrite FloatAxioms.div_spec, Hs.
  now destruct (Prim2SF x).
Qed.

Lemma add_nonfinite (a b : float) : nonfinite b -> nonfinite (a + b).
Proof.
  unfold nonfinite. rewrite FloatAxioms.add_spec.
  destruct (Prim2SF a) as [sa|sa| |sa ma ea], (Prim2SF b) as [sb|sb| |sb mb eb];
    cbn; try discriminate; try reflexivity.
  now destruct sa, sb.
Qed.

Lemma sub_nonfinite (a b : float) : nonfinite b -> nonfinite (a - b).
Proof.
  unfold nonfinite. rewrite FloatAxioms.sub_spec.
  destruct (Prim2SF a) as [sa|sa| |sa ma ea], (Prim2SF b) as [sb|sb| |sb mb eb];
    cbn; try discriminate; try reflexivity.
  now destruct sa, sb.
Qed.

Lemma nonfinite_not_finite (f : float) : nonfinite f -> is_finite f = false.
Proof.
  unfold nonfinite, is_finite, is_nan, is_infinity.
  rewrite !FloatAxioms.eqb_spec, FloatAxioms.abs_spec.
  change (Prim2SF infinity) with (S754_infinity false).
  destruct (Prim2SF f) as [s|s| |s m e]; cbn; try discriminate; try reflexivity.
  now destruct s.
Qed.

Lemma Math_min_choice (a b : float) :
  Math_min a b = nan \/ Math_min a b = a \/ Math_min a b = b.
Proof.
  unfold Math_min.
  destruct (is_nan a || is_nan b); [now left|].
  destruct (is_neg_zero b && is_pos_zero a); [now right; right|].
  destruct (b <? a); auto.
Qed.

Lemma Math_max_choice (a b : float) :
  Math_max a b = nan \/ Math_max a b = a \/ Math_max a b = b.
Proof.
  unfold Math_max.
  destruct (is_nan a || is_nan b); [now left|].
  destruct (is_pos_zero b && is_neg_zero a); [now right; right|].
  destruct (a <? b); auto.
Qed.

Lemma clamp_nonfinite (x lo hi : float) :
  nonfinite x -> nonfinite lo -> nonfinite hi -> nonfinite (clamp x lo hi).
Proof.
  intros Hx Hlo Hhi. unfold clamp.
  assert (Hm : nonfinite (Math_min hi x))
    by (destruct (Math_min_choice hi x) as [-> |[-> | ->]];
        auto using nonfinite_nan).
  destruct (Math_max_choice lo (Math_min hi x)) as [-> |[-> | ->]];
    auto using nonfinite_nan.
Qed.

(** A NaN goes through the clamp as NaN. *)
Lemma clamp_nan (x lo hi : float) :
  is_nan x = true -> is_nan (clamp x lo hi) = true.
Proof.
  intros Hx. unfold clamp.
  assert (E : Math_min hi x = nan)
    by (unfold Math_min; now rewrite Hx, orb_true_r).
  rewrite E. unfold Math_max.
  assert (N : is_nan nan = true) by reflexivity.
  now rewrite N, orb_true_r.
Qed.

(** A value is not reported as changed against itself. *)
Lemma notEqual_same (x : float) : notEqual x x = false.
Proof.
  unfold notEqual, Object_is, is_nan. rewrite Bool.eqb_reflx.
  now destruct (x =? x).
Qed.

End FloatOrder.

(** ** Listener lists *)

Section Listeners.

Import SplitPaneContainer.

Lemma documentListeners_after_add (ls : list Listener) :
  ls = [] \/ ls = [mousemoveListener; mouseupListener] ->
  addEventListener mouseupListener (addEventListener mousemoveListener ls)
  = [mousemoveListener; mouseupListener].
Proof. intros [->| ->]; reflexivity. Qed.

Lemma documentListeners_after_remove (ls : list Listener) :
  ls = [] \/ ls = [mousemoveListener; mouseupListener] ->
  removeEventListener mouseupListener (removeEventListener mousemoveListener ls)
  = [].
Proof. intros [->| ->]; reflexivity. Qed.

End Listeners.

(** ** The drag state machine *)

Section Drag.

Import JS SplitPaneContainer Spec.

Variable SP : SplitPaneConstants.

Lemma updated_while_dragging (changed : list string) (w : World) :
  isDragging (this w) = true -> updated changed w = w.
Proof.
  intros H. unfold updated. rewrite H. now rewrite andb_false_r.
Qed.

Lemma step_keeps_dragging (i : Input) (w : World) :
  i <> Connected ->
  isDragging (this (deliver SP i w)) = true -> step SP i w = deliver SP i w.
Proof.
  intros Hi H. unfold step. destruct (hasUpdated w).
  - destruct (changedProperties i (this w) (this (deliver SP i w)));
      [reflexivity|].
    now apply updated_while_dragging.
  - destruct i; congruence.
Qed.

Lemma handleMouseMove_dragging (x : float) (c : Component) :
  isDragging c = true ->
  handleMouseMove SP x c =
    set_splitRatio
      (dragRatio SP (dragStartX c) (dragStartRatio c) (containerWidth c) x) c.
Proof. intros H. unfold handleMouseMove. rewrite H. reflexivity. Qed.

Lemma handleMouseMove_idle (x : float) (c : Component) :
  isDragging c = false -> handleMouseMove SP x c = c.
Proof. intros H. unfold handleMouseMove. now rewrite H. Qed.

Lemma step_move (x : float) (w : World) :
  dragInProgress w ->
  step SP (DocumentMouseMove x) w =
    set_this (set_splitRatio
                (dragRatio SP (dragStartX (this w)) (dragStartRatio (this w))
                           (containerWidth (this w)) x) (this w)) w.
Proof.
  intros [Hd Hl].
  assert (E : deliver SP (DocumentMouseMove x) w =
              set_this (handleMouseMove SP x (this w)) w).
  { cbn. rewrite Hl. reflexivity. }
  rewrite step_keeps_dragging; try discriminate;
    rewrite E, handleMouseMove_dragging by exact Hd; [reflexivity | exact Hd].
Qed.

Lemma step_move_progress (x : float) (w : World) :
  dragInProgress w -> dragInProgress (step SP (DocumentMouseMove x) w).
Proof. intros H. rewrite step_move by exact H. exact H. Qed.

(** After any pointer moves, the start state of the drag, the listeners and
    the trace are those of the start of the drag. *)
Lemma run_moves (xs : list float) (w : World) :
  dragInProgress w ->
  let w' := run SP (map DocumentMouseMove xs) w in
  dragInProgress w'
  /\ dragStartX (this w') = dragStartX (this w)
  /\ dragStartRatio (this w') = dragStartRatio (this w)
  /\ containerWidth (this w') = containerWidth (this w)
  /\ trace w' = trace w.
Proof.
  revert w. induction xs as [|x xs IH]; intros w H; cbn.
  - auto.
  - destruct (IH _ (step_move_progress x w H)) as (P & A & B & C & D).
    pose proof (step_move x w H) as E.
    rewrite A, B, C, D. rewrite E at 2 3 4 5. cbn. auto.
Qed.

Lemma run_app (xs ys : list Input) (w : World) :
  run SP (xs ++ ys) w = run SP ys (run SP xs w).
Proof. revert w. induction xs as [|x xs IH]; intros w; cbn; auto. Qed.

Lemma run_moves_last (xs : list float) (x : float) (w : World) :
  dragInProgress w ->
  let w' := run SP (map DocumentMouseMove (xs ++ [x])) w in
  dragInProgress w'
  /\ trace w' = trace w
  /\ splitRatio (this w') =
       dragRatio SP (dragStartX (this w)) (dragStartRatio (this w))
                 (containerWidth (this w)) x.
Proof.
  intros H. cbn zeta. rewrite map_app, run_app. cbn [map run].
  destruct (run_moves xs w H) as (P & A & B & C & D). cbn zeta in *.
  split; [now apply step_move_progress|].
  rewrite step_move by exact P. cbn. rewrite A, B, C. auto.
Qed.

Lemma step_divider_down (dom : Dom) (x : float) (w : World) :
  step SP (DividerMouseDown dom x) w = handleDividerMouseDown SP dom x w.
Proof. apply step_keeps_dragging; [discriminate | reflexivity]. Qed.

Lemma step_release (w : World) :
  dragInProgress w ->
  step SP DocumentMouseUp w =
    mkWorld (set_isDragging false (this w)) [] (ownListeners w) "" ""
            (trace w ++ [Dispatched (splitResize (splitRatio (this w)))]
                     ++ [RefitRequested])
            (hasUpdated w).
Proof.
  intros [Hd Hl]. unfold step. cbn [deliver]. rewrite Hl. cbn [registered existsb].
  change (Listener_eqb mouseupListener mousemoveListener) with false.
  change (Listener_eqb mouseupListener mouseupListener) with true.
  cbn [orb]. unfold handleMouseUp. rewrite Hd, Hl. cbn.
  unfold changedProperties. cbn. rewrite Z.eqb_refl, Hd, notEqual_same. cbn.
  unfold updated, refitAllTerminals, emit; cbn. rewrite <- app_assoc.
  now destruct (hasUpdated w).
Qed.

End Drag.

(** ** The listeners over the life of the component *)

Section Lifecycle.

Import JS SplitPaneContainer Spec.

Variable SP : SplitPaneConstants.

Lemma updated_this (changed : list string) (w : World) :
  this (updated changed w) = this w
  /\ documentListeners (updated changed w) = documentListeners w.
Proof.
  unfold updated.
  destruct (existsb (String.eqb "splitRatio") changed && negb (isDragging (this w)));
    auto.
Qed.

Lemma step_this (i : Input) (w : World) :
  this (step SP i w) = this (deliver SP i w)
  /\ documentListeners (step SP i w) = documentListeners (deliver SP i w).
Proof.
  unfold step. destruct (hasUpdated w).
  - destruct (changedProperties i (this w) (this (deliver SP i w))); [auto|].
    apply updated_this.
  - destruct i; auto. unfold firstUpdate.
    apply (updated_this initialProperties
             (set_hasUpdated true (deliver SP Connected w))).
Qed.

Lemma dispatchAll_this (evs : list CustomEvent) (w : World) :
  this (dispatchAll evs w) = this w
  /\ documentListeners (dispatchAll evs w) = documentListeners w
  /\ trace (dispatchAll evs w) = trace w ++ map Dispatched evs.
Proof.
  revert w. induction evs as [|e evs IH]; intros w; cbn.
  - now rewrite app_nil_r.
  - destruct (IH (emit (Dispatched e) w)) as (A & B & C).
    rewrite A, B, C. cbn. now rewrite <- app_assoc.
Qed.

Lemma deliver_paired (i : Input) (w : World) :
  listenersPaired w -> listenersPaired (deliver SP i w).
Proof.
  intros H. unfold listenersPaired, dragInProgress in *.
  destruct i; cbn [deliver].
  - right. split; [reflexivity|]. cbn.
    apply documentListeners_after_add. tauto.
  - destruct (registered mousedownListener (ownListeners w)); [|exact H].
    destruct (dispatchAll_this (handlePaneMouseDown dom target (this w)) w)
      as (A & B & _).
    now rewrite A, B.
  - destruct H as [H|[Hd Hl]].
    + rewrite H. cbn. auto.
    + rewrite Hl. cbn. right. split; [|exact Hl].
      rewrite handleMouseMove_dragging by exact Hd. exact Hd.
  - destruct H as [H|[Hd Hl]].
    + rewrite H. cbn. auto.
    + rewrite Hl. cbn. unfold handleMouseUp. rewrite Hd, Hl. cbn. auto.
  - exact H.
  - left. cbn. apply documentListeners_after_remove. tauto.
  - exact H.
  - exact H.
  - exact H.
Qed.

Lemma step_paired (i : Input) (w : World) :
  listenersPaired w -> listenersPaired (step SP i w).
Proof.
  intros H. apply (deliver_paired i) in H.
  destruct (step_this i w) as [A B].
  unfold listenersPaired, dragInProgress in *. now rewrite A, B.
Qed.

Lemma run_paired (inputs : list Input) (w : World) :
  listenersPaired w -> listenersPaired (run SP inputs w).
Proof.
  revert w. induction inputs as [|i inputs IH]; intros w H; cbn; [exact H|].
  apply IH, step_paired, H.
Qed.

Lemma reachable_paired (inputs : list Input) :
  listenersPaired (run SP inputs (initialWorld SP)).
Proof. apply run_paired. now left. Qed.

Lemma divider_down_starts_drag (dom : Dom) (x : float) (w : World) :
  listenersPaired w -> dragInProgress (step SP (DividerMouseDown dom x) w).
Proof.
  intros H. rewrite step_divider_down. split; [reflexivity|]. cbn.
  apply documentListeners_after_add. unfold listenersPaired, dragInProgress in H.
  tauto.
Qed.

End Lifecycle.

(** ** The ratio of a drag *)

Section DragRatio.

Import JS SplitPaneContainer Spec.
Open Scope float_scope.

(** C1: a drag that starts on the divider captures [startX], the current
    ratio and the container width (root width minus divider width); with a
    positive width, every pointer move at [currentX], after any earlier
    moves, sets the ratio to
    [clamp (startRatio + (currentX - startX) / width) minRatio maxRatio],
    replaying the same move changes nothing, and the release publishes that
    ratio.  With start ratio 0.5, width 1000 and a move by 150 the ratio is
    0.65, for a minimum pane width that leaves 0.65 within the bounds. *)
Theorem drag_sets_clamped_ratio
  (SP : SplitPaneConstants) (before : list Input) (dom : Dom)
  (container : Element) (startX : float) :
  let w := run SP before (initialWorld SP) in
  let startRatio := splitRatio (this w) in
  let containerWidthPx := clientWidth container - DIVIDER_WIDTH SP in
  let w0 := step SP (DividerMouseDown dom startX) w in
  dom "#split-pane-root" = Some container ->
  (0 <? containerWidthPx) = true ->
  (forall (earlier : list float) (currentX : float),
      let w1 := run SP (map DocumentMouseMove (earlier ++ [currentX])) w0 in
      splitRatio (this w1) =
        dragRatio SP startX startRatio containerWidthPx currentX
      /\ step SP (DocumentMouseMove currentX) w1 = w1
      /\ trace (step SP DocumentMouseUp w1) =
           trace w
           ++ [Dispatched
                 (splitResize
                    (dragRatio SP startX startRatio containerWidthPx currentX));
               RefitRequested])
  /\ (forall currentX : float,
         startRatio = 0.5 -> containerWidthPx = 1000 ->
         currentX - startX = 150 ->
         (MIN_WIDTH SP / 1000 <=? 0.65) = true ->
         (0.65 <=? 1 - MIN_WIDTH SP / 1000) = true ->
         dragRatio SP startX startRatio containerWidthPx currentX = 0.65).
Proof.
  intros w startRatio containerWidthPx w0 Hroot Hpos.
  assert (P0 : dragInProgress w0)
    by (apply divider_down_starts_drag, reachable_paired).
  assert (S0 : dragStartX (this w0) = startX
               /\ dragStartRatio (this w0) = startRatio
               /\ containerWidth (this w0) = containerWidthPx
               /\ trace w0 = trace w).
  { unfold w0. rewrite step_divider_down. cbn. rewrite Hroot. auto. }
  destruct S0 as (SX & SR & SW & ST).
  split.
  - intros earlier currentX w1.
    destruct (run_moves_last SP earlier currentX w0 P0) as (P1 & T1 & R1).
    fold w1 in P1, T1, R1. rewrite SX, SR, SW in R1.
    split; [exact R1|]. split.
    + rewrite step_move by exact P1.
      destruct (run_moves SP (earlier ++ [currentX]) w0 P0) as (_ & A & B & C & _).
      fold w1 in A, B, C. rewrite A, B, C, SX, SR, SW, <- R1.
      destruct w1 as [[]]; reflexivity.
    + rewrite step_release by exact P1. cbn. now rewrite T1, ST, R1.
  - intros currentX HR HW HD Hlo Hhi. unfold dragRatio.
    rewrite HR, HW, HD.
    assert (E : 0.5 + 150 / 1000 = 0.65) by reflexivity.
    rewrite E. now apply clamp_within.
Qed.

(** With ordered bounds, the ratio that a pointer move stores lies within
    them. *)
Lemma dragRatio_within_bounds
      (SP : SplitPaneConstants) (startX startRatio width currentX : float) :
  let minRatio := MIN_WIDTH SP / width in
  let maxRatio := 1 - minRatio in
  (minRatio <=? maxRatio) = true ->
  is_nan (startRatio + (currentX - startX) / width) = false ->
  (minRatio <=? dragRatio SP startX startRatio width currentX) = true
  /\ (dragRatio SP startX startRatio width currentX <=? maxRatio) = true.
Proof. intros minRatio maxRatio Hb Hn. now apply clamp_bounds. Qed.

(** The example of C1 on the sample page: a root of 1004 with a divider of 4,
    the default ratio 0.5, a drag from 300 to 450. *)
Lemma drag_sets_clamped_ratio_witness :
  let w0 := step sampleConstants (DividerMouseDown (samplePage 1004) 300)
                 (initialWorld sampleConstants) in
  let w1 := run sampleConstants (map DocumentMouseMove [320; 450]) w0 in
  splitRatio (this w1) = 0.65
  /\ step sampleConstants (DocumentMouseMove 450) w1 = w1
  /\ trace (step sampleConstants DocumentMouseUp w1) =
       [Dispatched (splitResize 0.65); RefitRequested].
Proof.
  pose proof (drag_sets_clamped_ratio sampleConstants [] (samplePage 1004)
                (mkElement (fun _ => true) 1004) 300 eq_refl eq_refl) as [H E].
  specialize (H [320] 450). cbn zeta in H. destruct H as (H1 & H2 & H3).
  specialize (E 450 eq_refl eq_refl eq_refl eq_refl eq_refl).
  rewrite E in H3. cbn zeta.
  split; [exact (eq_trans H1 E)|]. split; [exact H2|exact H3].
Defined.

(** C2, as the handlers have it: a pointer-down on the divider always starts
    the drag and puts the listeners in place, whatever the container width,
    and captures that width (root width minus divider width) as it is.  The
    pointer-move handler has no guard on the width: during the drag every
    pointer move at [currentX], after any earlier moves, sets the ratio to
    [clamp (startRatio + (currentX - startX) / width) minRatio maxRatio]
    with the captured width, also when that width is zero or negative.  The
    one guard of the handler is the drag flag: a pointer move outside a drag
    leaves the component unchanged. *)
Theorem drag_without_width_guard
  (SP : SplitPaneConstants) (before : list Input) (dom : Dom) (startX : float) :
  let w := run SP before (initialWorld SP) in
  let w0 := step SP (DividerMouseDown dom startX) w in
  dragInProgress w0
  /\ containerWidth (this w0) =
       match dom "#split-pane-root" with
       | Some container => clientWidth container - DIVIDER_WIDTH SP
       | None => containerWidth (this w)
       end
  /\ (forall (earlier : list float) (currentX : float),
         let w1 := run SP (map DocumentMouseMove (earlier ++ [currentX])) w0 in
         dragInProgress w1
         /\ splitRatio (this w1) =
              dragRatio SP startX (splitRatio (this w)) (containerWidth (this w0))
                        currentX)
  /\ (forall (currentX : float) (c : Component),
         isDragging c = false -> handleMouseMove SP currentX c = c).
Proof.
  intros w w0.
  assert (P0 : dragInProgress w0)
    by (apply divider_down_starts_drag, reachable_paired).
  split; [exact P0|]. split; [|split].
  - unfold w0. rewrite step_divider_down. reflexivity.
  - intros earlier currentX w1.
    destruct (run_moves_last SP earlier currentX w0 P0) as (P1 & _ & R1).
    fold w1 in P1, R1. split; [exact P1|]. rewrite R1.
    unfold w0. rewrite step_divider_down. reflexivity.
  - intros currentX c. apply handleMouseMove_idle.
Qed.

(** The sample drag of C2: the drag starts on a root that is narrower than
    the divider, and the second move of the drag is stored by the formula
    with the negative width. *)
Lemma drag_without_width_guard_witness :
  let w0 := step sampleConstants (DividerMouseDown (samplePage 2) 100)
                 (initialWorld sampleConstants) in
  let w1 := run sampleConstants (map DocumentMouseMove [105; 110]) w0 in
  dragInProgress w0
  /\ containerWidth (this w0) = (-2)
  /\ dragInProgress w1
  /\ splitRatio (this w1) = (-4.5)
  /\ handleMouseMove sampleConstants 110 (this (initialWorld sampleConstants)) =
       this (initialWorld sampleConstants).
Proof.
  destruct (drag_without_width_guard sampleConstants [] (samplePage 2) 100)
    as (P & W & M & I).
  destruct (M [105] 110) as [P1 R1]. cbn zeta.
  split; [exact P|]. split; [exact W|]. split; [exact P1|].
  split; [exact (eq_trans R1 eq_refl)|]. apply I. reflexivity.
Defined.

(** With a captured width of zero, every pointer move of a drag stores a
    ratio that is not finite, whatever the constants and the positions. *)
Lemma zero_width_ratio_not_finite
      (SP : SplitPaneConstants) (currentX : float) (c : Component) :
  isDragging c = true -> is_zero (containerWidth c) = true ->
  is_finite (splitRatio (handleMouseMove SP currentX c)) = false.
Proof.
  intros Hd Hz. rewrite handleMouseMove_dragging by exact Hd. cbn.
  apply nonfinite_not_finite. unfold dragRatio.
  apply clamp_nonfinite.
  - apply add_nonfinite, div_zero_nonfinite, Hz.
  - apply div_zero_nonfinite, Hz.
  - apply sub_nonfinite, div_zero_nonfinite, Hz.
Qed.

(** C2 fails as stated: on a root as wide as the divider the captured width
    is 0; the drag starts, and the first pointer move divides by that width
    and stores an infinite ratio in place of 0.5. *)
Lemma degenerate_width_counterexample :
  let w0 := step sampleConstants (DividerMouseDown (samplePage 4) 100)
                 (initialWorld sampleConstants) in
  let w1 := step sampleConstants (DocumentMouseMove 110) w0 in
  (containerWidth (this w0) <=? 0) = true
  /\ isDragging (this w0) = true
  /\ splitRatio (this w0) = 0.5
  /\ splitRatio (this w1) = infinity
  /\ is_finite (splitRatio (this w1)) = false.
Proof. vm_compute. repeat split. Qed.

End DragRatio.

(** ** The focus arbiter *)

Section Focus.

Import SplitPaneContainer Spec.

Lemma firstIndex_spec {A : Type} (f : A -> bool) (d : A) (l : list A) :
  f d = false ->
  forall i : nat,
    firstIndex f l = Some i <->
    f (nth i l d) = true /\ forall j : nat, j < i -> f (nth j l d) = false.
Proof.
  intros Hd. induction l as [|x l IH]; intros i; cbn.
  - split; [discriminate|]. intros [H _]. destruct i; congruence.
  - destruct (f x) eqn:Hx.
    + split.
      * intros [= <-]. split; [exact Hx|]. intros j Hj. lia.
      * intros [Hi Hlt]. destruct i as [|i]; [reflexivity|].
        specialize (Hlt 0 ltac:(lia)). cbn in Hlt. congruence.
    + destruct i as [|i].
      * split; [destruct (firstIndex f l); discriminate|].
        intros [Hi _]. congruence.
      * specialize (IH i). split.
        -- intros H. destruct (firstIndex f l) as [k|]; [|discriminate].
           injection H as ->. destruct IH as [IH _].
           destruct (IH eq_refl) as [Hi Hlt]. split; [exact Hi|].
           intros [|j] Hj; [exact Hx|]. apply Hlt. lia.
        -- intros [Hi Hlt]. destruct IH as [_ IH]. rewrite IH; [reflexivity|].
           split; [exact Hi|]. intros j Hj. apply (Hlt (S j)). lia.
Qed.

Lemma paneLoop_firstIndex (dom : Dom) (active : Z) (target : Node)
      (ps : list (option SplitPane)) (k : nat) :
  paneLoop dom active target k ps =
    match firstIndex (withinPane dom target) ps with
    | Some i =>
        if Z.eqb active (Z.of_nat (k + i)) then [] else [paneFocus (k + i)]
    | None => []
    end.
Proof.
  revert k. induction ps as [|p ps IH]; intros k; cbn [paneLoop firstIndex];
    [reflexivity|].
  assert (Next : paneLoop dom active target (S k) ps =
                 match option_map S (firstIndex (withinPane dom target) ps) with
                 | Some i =>
                     if Z.eqb active (Z.of_nat (k + i)) then []
                     else [paneFocus (k + i)]
                 | None => []
                 end).
  { rewrite IH.
    destruct (firstIndex (withinPane dom target) ps) as [i|];
      cbn [option_map]; [|reflexivity].
    now rewrite Nat.add_succ_r. }
  destruct p as [pane|]; cbn [withinPane]; [|exact Next].
  destruct (dom (paneSelector (sessionId pane))) as [paneEl|]; [|exact Next].
  destruct (contains paneEl target); [|exact Next].
  rewrite Nat.add_0_r. unfold paneFocus.
  now destruct (Z.eqb active (Z.of_nat k)).
Qed.

Lemma changed_nothing (i : Input) (c : Component) :
  (forall ps, i <> AssignPanes ps) -> changedProperties i c c = [].
Proof.
  intros Hi. unfold changedProperties.
  rewrite Z.eqb_refl, Bool.eqb_reflx, notEqual_same. cbn.
  destruct i; try reflexivity. now destruct (Hi ps eq_refl).
Qed.

Lemma step_same_component (SP : SplitPaneConstants) (i : Input) (w : World) :
  i <> Connected -> (forall ps, i <> AssignPanes ps) ->
  this (deliver SP i w) = this w -> step SP i w = deliver SP i w.
Proof.
  intros Hc Hi H. unfold step. rewrite H, changed_nothing by exact Hi.
  destruct (hasUpdated w); [reflexivity|]. destruct i; congruence.
Qed.

(** C3: a capture-phase pointer-down within the divider raises nothing;
    otherwise the first pane, in order, whose subtree contains the target
    decides: one [pane-focus] with its index when the index is not the
    active one, nothing when it is or when no pane contains the target. *)
Theorem pane_focus_arbiter
  (SP : SplitPaneConstants) (dom : Dom) (target : Node) (w : World) :
  let expected :=
    if withinDivider dom target then []
    else match firstPane dom target (panes (this w)) with
         | Some index =>
             if Z.eqb (activePaneIndex (this w)) (Z.of_nat index) then []
             else [paneFocus index]
         | None => []
         end in
  handlePaneMouseDown dom target (this w) = expected
  /\ (forall index : nat,
         firstPane dom target (panes (this w)) = Some index <->
         withinPane dom target (nth index (panes (this w)) None) = true
         /\ forall j : nat,
             j < index ->
             withinPane dom target (nth j (panes (this w)) None) = false)
  /\ (registered mousedownListener (ownListeners w) = true ->
      trace (step SP (ContainerMouseDown dom target) w) =
        trace w ++ map Dispatched expected).
Proof.
  intros expected.
  assert (E : handlePaneMouseDown dom target (this w) = expected).
  { unfold handlePaneMouseDown, expected, withinDivider, firstPane.
    rewrite paneLoop_firstIndex. cbn [Nat.add].
    destruct (dom "#split-divider") as [divider|];
      [destruct (contains divider target)|]; reflexivity. }
  split; [exact E|]. split.
  - intros index. apply firstIndex_spec. reflexivity.
  - intros Hreg.
    assert (D : deliver SP (ContainerMouseDown dom target) w =
                dispatchAll expected w) by (cbn [deliver]; now rewrite Hreg, E).
    destruct (dispatchAll_this expected w) as (A & _ & C).
    rewrite step_same_component by (discriminate || now rewrite D).
    now rewrite D.
Qed.

(** The examples of C3 on the sample page, left pane active: a click in the
    right pane raises one [pane-focus] with index 1; once the right pane is
    active the same click raises nothing; a click on the divider raises
    nothing. *)
Lemma pane_focus_arbiter_witness :
  let c := mkComponent samplePanes 0%Z 0.5%float false 0%float 0%float 0%float in
  let w := mkWorld c [] [mousedownListener] "" "" [] true in
  let w' := set_this (set_activePaneIndex 1%Z c) w in
  handlePaneMouseDown (samplePage 1004) 2 (this w) = [paneFocus 1]
  /\ handlePaneMouseDown (samplePage 1004) 2 (this w') = []
  /\ handlePaneMouseDown (samplePage 1004) 0 (this w) = []
  /\ trace (step sampleConstants (ContainerMouseDown (samplePage 1004) 2) w) =
       [Dispatched (paneFocus 1)].
Proof.
  intros c w w'.
  destruct (pane_focus_arbiter sampleConstants (samplePage 1004) 2 w)
    as (A & _ & T).
  destruct (pane_focus_arbiter sampleConstants (samplePage 1004) 2 w')
    as (B & _ & _).
  destruct (pane_focus_arbiter sampleConstants (samplePage 1004) 0 w)
    as (D & _ & _).
  split; [exact A|]. split; [exact B|]. split; [exact D|].
  exact (T eq_refl).
Defined.

End Focus.

(** ** Teardown and the deferred re-layout *)

Section Teardown.

Import JS SplitPaneContainer Spec.

Variable SP : SplitPaneConstants.

Lemma step_without_listeners (i : Input) (w : World) :
  pointerEvent i = true -> documentListeners w = [] -> step SP i w = w.
Proof.
  intros Hi Hl.
  assert (E : deliver SP i w = w)
    by (destruct i; try discriminate; cbn; now rewrite Hl).
  rewrite step_same_component; [exact E| | |now rewrite E];
    intros; intros ->; discriminate.
Qed.

Lemma run_without_listeners (inputs : list Input) (w : World) :
  forallb pointerEvent inputs = true -> documentListeners w = [] ->
  run SP inputs w = w.
Proof.
  induction inputs as [|i inputs IH]; cbn; [reflexivity|].
  intros H Hl. apply andb_prop in H. destruct H as [Hi H].
  rewrite step_without_listeners by assumption. now apply IH.
Qed.

Lemma step_disconnected (w : World) :
  step SP Disconnected w = disconnectedCallback w.
Proof. now apply step_same_component. Qed.

Lemma step_ratio_change (i : Input) (w : World) :
  ratioChange i = true -> dragInProgress w ->
  dragInProgress (step SP i w) /\ trace (step SP i w) = trace w.
Proof.
  intros Hi H. destruct i; try discriminate.
  - rewrite step_move by exact H. split; [exact H|reflexivity].
  - destruct H as [Hd Hl].
    rewrite step_keeps_dragging by (discriminate || exact Hd).
    cbn. split; [split|]; auto.
Qed.

Lemma run_ratio_changes (inputs : list Input) (w : World) :
  forallb ratioChange inputs = true -> dragInProgress w ->
  dragInProgress (run SP inputs w) /\ trace (run SP inputs w) = trace w.
Proof.
  revert w. induction inputs as [|i inputs IH]; intros w H P; cbn; [auto|].
  cbn in H. apply andb_prop in H. destruct H as [Hi H].
  destruct (step_ratio_change i w Hi P) as [P' T'].
  destruct (IH _ H P') as [P'' T'']. rewrite T'', T'. auto.
Qed.

(** C4: in every state that the component can reach, whether a drag is in
    progress or not, the two global listeners are in place only during a
    drag, once each: a state outside a drag has none, and a pointer-down on
    the divider puts both in place.  When the component leaves the document,
    during a drag or not, the two listeners are removed and nothing is
    published; later pointer events on the document change nothing.  Both
    ways out of a drag (release, removal) leave no global listener. *)
Theorem teardown_releases_listeners (before : list Input) :
  let w := run SP before (initialWorld SP) in
  let w' := step SP Disconnected w in
  listenersPaired w
  /\ (isDragging (this w) = false -> documentListeners w = [])
  /\ (forall (dom : Dom) (startX : float),
         dragInProgress (step SP (DividerMouseDown dom startX) w))
  /\ documentListeners w' = []
  /\ trace w' = trace w
  /\ (forall later : list Input,
         forallb pointerEvent later = true -> run SP later w' = w')
  /\ documentListeners (step SP DocumentMouseUp w) = [].
Proof.
  intros w w'.
  pose proof (reachable_paired SP before) as P. fold w in P.
  assert (L : documentListeners w' = []).
  { unfold w'. rewrite step_disconnected. cbn.
    apply documentListeners_after_remove.
    unfold listenersPaired, dragInProgress in P. tauto. }
  split; [exact P|]. split; [|split; [|split; [exact L|split; [|split]]]].
  - intros Hd. destruct P as [P|[P _]]; [exact P|congruence].
  - intros dom startX. now apply divider_down_starts_drag.
  - unfold w'. now rewrite step_disconnected.
  - intros later H. now apply run_without_listeners.
  - destruct P as [P|P].
    + now rewrite step_without_listeners.
    + now rewrite step_release.
Qed.

(** C5: during a drag neither [updated] nor any change of the ratio (a
    pointer move, an assignment by the owner) raises anything: the trace
    stays as it was; the release ends the drag and raises, in this order,
    [split-resize] with the ratio of that moment and the request to refit
    the terminals. *)
Theorem relayout_deferred_until_release (w : World) (inputs : list Input) :
  let w1 := run SP inputs w in
  let w2 := step SP DocumentMouseUp w1 in
  dragInProgress w ->
  forallb ratioChange inputs = true ->
  (forall changed : list string, updated changed w1 = w1)
  /\ dragInProgress w1
  /\ trace w1 = trace w
  /\ isDragging (this w2) = false
  /\ trace w2 =
       trace w ++ [Dispatched (splitResize (splitRatio (this w1)));
                   RefitRequested].
Proof.
  intros w1 w2 P H.
  destruct (run_ratio_changes inputs w H P) as [P1 T1]. fold w1 in P1, T1.
  split; [|split; [exact P1|split; [exact T1|]]].
  - intros changed. apply updated_while_dragging, P1.
  - unfold w2. rewrite step_release by exact P1. cbn. now rewrite T1.
Qed.

End Teardown.

Section TeardownExamples.

Import JS SplitPaneContainer Spec.

(** C4 on the sample page: the connected component has no global listener;
    a drag starts and moves, then the component is removed; a later move and
    a later release leave the ratio and the trace alone: the refit of the
    first update is all that was ever requested. *)
Lemma teardown_releases_listeners_witness :
  let idle := run sampleConstants [Connected] (initialWorld sampleConstants) in
  let w := run sampleConstants
               [Connected; DividerMouseDown (samplePage 1004) 300;
                DocumentMouseMove 450]
               (initialWorld sampleConstants) in
  let w' := step sampleConstants Disconnected w in
  documentListeners idle = []
  /\ isDragging (this w) = true
  /\ documentListeners w = [mousemoveListener; mouseupListener]
  /\ documentListeners w' = []
  /\ trace w' = [RefitRequested]
  /\ run sampleConstants [DocumentMouseMove 600; DocumentMouseUp] w' = w'.
Proof.
  intros idle w w'.
  destruct (teardown_releases_listeners sampleConstants [Connected])
    as (_ & I & _).
  destruct (teardown_releases_listeners sampleConstants
              [Connected; DividerMouseDown (samplePage 1004) 300;
               DocumentMouseMove 450])
    as (_ & _ & _ & L & T & R & _).
  split; [exact (I eq_refl)|].
  split; [reflexivity|]. split; [reflexivity|]. split; [exact L|].
  split; [exact (eq_trans T eq_refl)|].
  exact (R [DocumentMouseMove 600; DocumentMouseUp] eq_refl).
Defined.

(** C5 on the sample page: a drag from 300 over 320 to 450, with an
    assignment of the ratio in between, raises nothing until the release. *)
Lemma relayout_deferred_until_release_witness :
  let w := step sampleConstants (DividerMouseDown (samplePage 1004) 300)
                (initialWorld sampleConstants) in
  let w1 := run sampleConstants
                [DocumentMouseMove 320; AssignSplitRatio 0.3;
                 DocumentMouseMove 450] w in
  trace w1 = []
  /\ trace (step sampleConstants DocumentMouseUp w1) =
       [Dispatched (splitResize 0.65); RefitRequested].
Proof.
  intros w w1.
  destruct (relayout_deferred_until_release sampleConstants w
              [DocumentMouseMove 320; AssignSplitRatio 0.3;
               DocumentMouseMove 450]
              (conj eq_refl eq_refl) eq_refl)
    as (_ & _ & T1 & _ & T2).
  split; [exact T1|exact T2].
Defined.

(** Outside a drag, once the component has been through its first update,
    a change of the ratio is followed by the refit at once. *)
Lemma refit_outside_drag (SP : SplitPaneConstants) (r : float) (w : World) :
  hasUpdated w = true ->
  isDragging (this w) = false ->
  notEqual r (splitRatio (this w)) = true ->
  trace (step SP (AssignSplitRatio r) w) = trace w ++ [RefitRequested].
Proof.
  intros Hu Hd Hr. unfold step. rewrite Hu. cbn [deliver].
  unfold changedProperties. cbn.
  rewrite Z.eqb_refl, Hr, Bool.eqb_reflx. cbn. unfold updated. cbn.
  now rewrite Hd.
Qed.

End TeardownExamples.

(** ** Requesting a split by drag and drop *)

Section SplitInitiation.

Import CompactSessionCard Spec.

Lemma getData_absent (format : string) (its : list (string * string)) :
  existsb (String.eqb format) (map fst its) = false -> getData format its = "".
Proof.
  induction its as [|[k v] its IH]; cbn; [reflexivity|].
  rewrite (String.eqb_sym format k).
  destruct (String.eqb k format); cbn; [discriminate|exact IH].
Qed.

Lemma getData_setData (format data : string) (its : list (string * string)) :
  getData format (setData format data its) = data.
Proof.
  induction its as [|[k v] its IH]; cbn.
  - now rewrite String.eqb_refl.
  - destruct (String.eqb k format) eqn:E; cbn; now rewrite E.
Qed.

(** A drag that starts on one card and ends on another requests the split
    of the two sessions. *)
Lemma drag_then_drop (e : DragEvent) (dt : DataTransfer) (a b : Card) :
  dataTransfer e = Some dt ->
  id (session a) <> "" -> id (session a) <> id (session b) ->
  snd (handleDrop (snd (handleDragStart e a)) b) =
    [splitWithSession (id (session a)) (id (session b))].
Proof.
  intros Hdt Ha Hab. unfold handleDragStart. rewrite Hdt.
  unfold handleDrop, draggedSessionId. cbn. rewrite getData_setData.
  apply String.eqb_neq in Ha, Hab. now rewrite Ha, Hab.
Qed.

(** C6: on a drop, a payload under the split key (a non-empty id, which is
    how [getData] tells a stored payload from a missing one) that differs
    from the card's own id raises exactly one [split-with-session] with the
    two ids; a missing [dataTransfer], nothing stored under the key (then
    drag-over did not accept the drop either), or the card's own id raise
    nothing.  The handler always returns and clears the drop-target state. *)
Theorem drop_requests_split (e : DragEvent) (c : Card) :
  let own := id (session c) in
  (forall draggedId : string,
      draggedSessionId e = Some draggedId ->
      draggedId <> "" -> draggedId <> own ->
      snd (handleDrop e c) = [splitWithSession draggedId own])
  /\ (draggedSessionId e = None \/ draggedSessionId e = Some ""
      \/ draggedSessionId e = Some own ->
      snd (handleDrop e c) = [])
  /\ (forall dt : DataTransfer,
         dataTransfer e = Some dt ->
         includes sessionIdFormat (types dt) = false ->
         draggedSessionId e = Some "" /\ snd (handleDragOver e c) = false)
  /\ isDragOver (fst (handleDrop e c)) = false.
Proof.
  intros own. unfold handleDrop. split; [|split; [|split]].
  - intros draggedId He Hne Hown. rewrite He.
    apply String.eqb_neq in Hne, Hown. fold own. now rewrite Hne, Hown.
  - intros [He|[He|He]]; rewrite He; [reflexivity|reflexivity|].
    fold own. rewrite String.eqb_refl. now destruct (String.eqb own "").
  - intros dt Hdt Hinc. unfold draggedSessionId, handleDragOver. rewrite Hdt.
    rewrite Hinc. cbn. split; [|reflexivity].
    f_equal. now apply getData_absent.
  - destruct (draggedSessionId e) as [d|]; [|reflexivity].
    destruct (String.eqb d ""); [reflexivity|].
    now destruct (String.eqb d (id (session c))).
Qed.

(** The example of C6: session A is dragged from its card and dropped on
    the card of session B, then on its own card. *)
Lemma drop_requests_split_witness :
  let cardA := mkCard (mkSession "A" "one" "running") false "running" false false in
  let cardB := mkCard (mkSession "B" "two" "running") false "running" false false in
  let e := snd (handleDragStart (mkDragEvent (Some (mkDataTransfer [] "" ""))) cardA) in
  snd (handleDragOver e cardB) = true
  /\ snd (handleDrop e cardB) = [splitWithSession "A" "B"]
  /\ snd (handleDrop e cardA) = []
  /\ snd (handleDrop (mkDragEvent (Some (mkDataTransfer [("text/plain", "A")] "" "")))
                     cardB) = [].
Proof.
  intros cardA cardB e.
  destruct (drop_requests_split e cardB) as (Hsplit & _ & _ & _).
  destruct (drop_requests_split e cardA) as (_ & Hself & _ & _).
  destruct (drop_requests_split
              (mkDragEvent (Some (mkDataTransfer [("text/plain", "A")] "" "")))
              cardB) as (_ & Hmiss & _ & _).
  split; [reflexivity|]. split; [|split].
  - apply (Hsplit "A" eq_refl); discriminate.
  - apply Hself. right. right. reflexivity.
  - apply Hmiss. right. left. reflexivity.
Defined.

End SplitInitiation.

(** ** Deleting a session *)

Section Deletion.

Import CompactSessionCard.

(** C9: when the delete service reports failure, exactly one
    [session-kill-error] with the session id and the error is raised and
    neither [session-delete] nor [session-cleanup]; when it reports success,
    [session-cleanup] is raised for an exited session and [session-delete]
    otherwise.  A service that only ever calls [onError] raises no success
    event at all. *)
Theorem delete_outcome_events (c : Card) :
  let own := id (session c) in
  (forall error : string,
      handleDelete (fun _ => [onError error]) c =
        [customEvent "session-kill-error" (ErrorDetail own error)])
  /\ handleDelete (fun _ => [onSuccess]) c =
       [customEvent (if String.eqb (status (session c)) "exited"
                     then "session-cleanup" else "session-delete")
                    (SessionIdDetail own)]
  /\ (forall deleteSession : Session -> list Callback,
         (forall cb, In cb (deleteSession (session c)) ->
                     exists error, cb = onError error) ->
         forall ev, In ev (handleDelete deleteSession c) ->
                    type ev = "session-kill-error").
Proof.
  intros own. split; [|split].
  - reflexivity.
  - reflexivity.
  - intros deleteSession Hfail ev Hev. unfold handleDelete in Hev.
    apply in_flat_map in Hev. destruct Hev as (cb & Hcb & Hin).
    destruct (Hfail cb Hcb) as [error ->]. cbn in Hin.
    destruct Hin as [<-|[]]. reflexivity.
Qed.

(** C9 on a running and on an exited session. *)
Lemma delete_outcome_events_witness :
  let live := mkCard (mkSession "s1" "one" "running") false "running" false false in
  let gone := mkCard (mkSession "s2" "two" "exited") false "exited" false false in
  handleDelete (fun _ => [onError "boom"]) live =
    [customEvent "session-kill-error" (ErrorDetail "s1" "boom")]
  /\ handleDelete (fun _ => [onSuccess]) live =
       [customEvent "session-delete" (SessionIdDetail "s1")]
  /\ handleDelete (fun _ => [onSuccess]) gone =
       [customEvent "session-cleanup" (SessionIdDetail "s2")].
Proof.
  intros live gone.
  destruct (delete_outcome_events live) as (E & S & _).
  destruct (delete_outcome_events gone) as (_ & S' & _).
  split; [exact (E "boom")|]. split; [exact S|exact S'].
Defined.

End Deletion.

(** ** The split group card *)

Section GroupCard.

Import SplitGroupCard Spec.

Lemma restore_only_when_persisted (c : Card) (evs : list CustomEvent) (ev : CustomEvent) :
  handleRestoreClick c = Some evs -> In ev evs ->
  mode c = persisted /\ groupId c <> "" /\ ev = restoreSplitGroup (groupId c).
Proof.
  unfold handleRestoreClick.
  destruct (mode c); cbn; [intros [= <-] H; contradiction|].
  destruct (String.eqb (groupId c) "") eqn:E; [intros [= <-] H; contradiction|].
  intros [= <-] [<-|H]; [|contradiction]. apply String.eqb_neq in E. auto.
Qed.

(** C7, as the handlers have it: in persisted mode with a non-empty group id
    a click on the card raises exactly one [restore-split-group] carrying
    the group id and nothing else; in active mode the controls are the two
    session names and the unsplit button, a click on a name raises
    [split-session-focus] with that session's id, a click on unsplit raises
    [unsplit] with the left session's id, and no click raises
    [restore-split-group]. *)
Theorem split_group_card_clicks (l r : Session) (g : string) :
  let stored := mkCard (Some l) (Some r) persisted g in
  let live := mkCard (Some l) (Some r) active g in
  controls (render stored) = [PersistedRoot]
  /\ (g <> "" -> click PersistedRoot stored = Some [restoreSplitGroup g])
  /\ controls (render live) = [LeftName; RightName; UnsplitButton]
  /\ click LeftName live = Some [splitSessionFocus (id l)]
  /\ click RightName live = Some [splitSessionFocus (id r)]
  /\ click UnsplitButton live = Some [unsplit (id l)]
  /\ (forall (ctl : Control) (evs : list CustomEvent) (ev : CustomEvent),
         click ctl live = Some evs -> In ev evs ->
         type ev <> "restore-split-group").
Proof.
  intros stored live. repeat split.
  - intros Hg. apply String.eqb_neq in Hg. unfold click. cbn.
    unfold handleRestoreClick. cbn. now rewrite Hg.
  - intros ctl evs ev Hc Hin. destruct ctl; cbn in Hc; injection Hc as <-;
      cbn in Hin; try contradiction;
      (destruct Hin as [<-|Hin]; [discriminate|contradiction]).
Qed.

(** C7 on the card of group g1. *)
Lemma split_group_card_clicks_witness :
  let l := sampleSession "a" in
  let r := sampleSession "b" in
  click PersistedRoot (mkCard (Some l) (Some r) persisted "g1") =
    Some [restoreSplitGroup "g1"]
  /\ click LeftName (mkCard (Some l) (Some r) active "g1") =
       Some [splitSessionFocus "a"]
  /\ click UnsplitButton (mkCard (Some l) (Some r) active "g1") =
       Some [unsplit "a"].
Proof.
  intros l r.
  destruct (split_group_card_clicks l r "g1") as (_ & R & _ & F & _ & U & _).
  split; [apply R; discriminate|]. split; [exact F|exact U].
Defined.

(** C7 fails as stated: the persisted card with the default group id (the
    empty string) is rendered with its click handler, and a click on it
    raises nothing. *)
Lemma persisted_click_counterexample :
  let stored :=
    mkCard (Some (sampleSession "a")) (Some (sampleSession "b")) persisted "" in
  controls (render stored) = [PersistedRoot]
  /\ click PersistedRoot stored = Some [].
Proof. split; reflexivity. Qed.

(** C8: the status indicator of the persisted card is the success class when
    both sessions are running, the warning class when exactly one of them
    is, and the error class when neither is, whatever the two statuses
    are. *)
Theorem group_status_color (l r : Session) (m : Mode) (g : string) :
  getGroupStatusColor (mkCard (Some l) (Some r) m g) =
    Some (match running l, running r with
          | true, true => "bg-status-success"
          | true, false | false, true => "bg-status-warning"
          | false, false => "bg-status-error"
          end)
  /\ statusClass (render (mkCard (Some l) (Some r) persisted g)) =
       getGroupStatusColor (mkCard (Some l) (Some r) persisted g).
Proof.
  split; [|reflexivity].
  unfold getGroupStatusColor, running; cbn.
  destruct (String.eqb (status l) "running"), (String.eqb (status r) "running");
    reflexivity.
Qed.

(** C10: the persisted card with an empty group id is rendered with its
    click handler, yet a click on it raises nothing; whatever the card and
    the control, a [restore-split-group] that is raised comes from a
    persisted card and carries its group id, which is not empty. *)
Theorem restore_needs_group_id (l r : Session) :
  let stored := mkCard (Some l) (Some r) persisted "" in
  controls (render stored) = [PersistedRoot]
  /\ click PersistedRoot stored = Some []
  /\ handleRestoreClick stored = Some []
  /\ (forall (c : Card) (ctl : Control) (evs : list CustomEvent)
             (ev : CustomEvent),
         handlerOf ctl c = Some evs \/ click ctl c = Some evs ->
         In ev evs -> type ev = "restore-split-group" ->
         mode c = persisted /\ groupId c <> ""
         /\ detail ev = GroupIdDetail (groupId c)).
Proof.
  intros stored.
  split; [reflexivity|]. split; [reflexivity|]. split; [reflexivity|].
  intros c ctl evs ev H Hin Hty.
  assert (Hh : handlerOf ctl c = Some evs).
  { destruct H as [H|H]; [exact H|]. unfold click in H.
    destruct (existsb (Control_eqb ctl) (controls (render c))); [exact H|].
    injection H as <-. contradiction. }
  destruct ctl; cbn in Hh.
  - unfold handleClickLeft in Hh. destruct (leftSession c); [|discriminate].
    injection Hh as <-. destruct Hin as [<-|Hin]; [discriminate|contradiction].
  - unfold handleClickRight in Hh. destruct (rightSession c); [|discriminate].
    injection Hh as <-. destruct Hin as [<-|Hin]; [discriminate|contradiction].
  - unfold handleUnsplit in Hh. destruct (leftSession c); [|discriminate].
    injection Hh as <-. destruct Hin as [<-|Hin]; [discriminate|contradiction].
  - destruct (restore_only_when_persisted c evs ev Hh Hin) as (A & B & ->).
    auto.
Qed.

(** C10 on the stored card of group g1: the one event raised carries g1. *)
Lemma restore_needs_group_id_witness :
  let stored :=
    mkCard (Some (sampleSession "a")) (Some (sampleSession "b")) persisted "g1" in
  click PersistedRoot stored = Some [restoreSplitGroup "g1"]
  /\ mode stored = persisted /\ groupId stored <> ""
  /\ detail (restoreSplitGroup "g1") = GroupIdDetail (groupId stored).
Proof.
  intros stored. split; [reflexivity|].
  destruct (restore_needs_group_id (sampleSession "a") (sampleSession "b"))
    as (_ & _ & _ & H).
  apply (H stored PersistedRoot [restoreSplitGroup "g1"] (restoreSplitGroup "g1")).
  - right. reflexivity.
  - left. reflexivity.
  - reflexivity.
Defined.

End GroupCard.

(** * Further properties of the components *)

(** ** The order of binary64 numbers, continued *)

Section FloatOrderMore.

Import JS.
Open Scope float_scope.

Ltac pos_cmp :=
  repeat match goal with
         | |- context [Pos.compare_cont Eq ?x ?y] =>
             change (Pos.compare_cont Eq x y) with (Pos.compare x y)
         end.

(** Comparison of the data composes: below-or-equal twice is below-or-equal,
    and equal only when both steps are. *)
Lemma SFcompare_trans (a b c : spec_float) (r1 r2 : comparison) :
  SFcompare a b = Some r1 -> SFcompare b c = Some r2 ->
  r1 <> Gt -> r2 <> Gt ->
  SFcompare a c = Some (match r1, r2 with Eq, Eq => Eq | _, _ => Lt end).
Proof.
  destruct a as [sa|sa| |sa ma ea], b as [sb|sb| |sb mb eb],
           c as [sc|sc| |sc mc ec]; cbn; try discriminate;
    try (destruct sa); try (destruct sb); try (destruct sc);
    intros [= <-] [= <-] N1 N2; try congruence; try reflexivity.
  all: pos_cmp; revert N1 N2.
  all: repeat (match goal with
               | |- context [(?x ?= ?y)%Z] => destruct (Z.compare_spec x y)
               | |- context [(?x ?= ?y)%positive] =>
                   destruct (Pos.compare_spec x y)
               end; pos_cmp; cbn [CompOpp]; try congruence; try lia).
Qed.

Lemma ltb_compare (a b : float) :
  (a <? b) = true <-> SFcompare (Prim2SF a) (Prim2SF b) = Some Lt.
Proof.
  rewrite FloatAxioms.ltb_spec. unfold SFltb.
  destruct (SFcompare (Prim2SF a) (Prim2SF b)) as [[]|]; split; congruence.
Qed.

Lemma leb_compare (a b : float) :
  (a <=? b) = true <->
  exists r, SFcompare (Prim2SF a) (Prim2SF b) = Some r /\ r <> Gt.
Proof.
  rewrite FloatAxioms.leb_spec. unfold SFleb.
  destruct (SFcompare (Prim2SF a) (Prim2SF b)) as [[]|]; split;
    try congruence; try (intros _; eexists; split; [reflexivity|congruence]);
    intros (r & [= <-] & N); congruence.
Qed.

Lemma ltb_leb_trans (a b c : float) :
  (a <? b) = true -> (b <=? c) = true -> (a <? c) = true.
Proof.
  rewrite !ltb_compare, leb_compare. intros H1 (r & H2 & N).
  rewrite (SFcompare_trans _ _ _ _ _ H1 H2) by congruence. reflexivity.
Qed.

Lemma leb_ltb_trans (a b c : float) :
  (a <=? b) = true -> (b <? c) = true -> (a <? c) = true.
Proof.
  rewrite !ltb_compare, leb_compare. intros (r & H1 & N) H2.
  rewrite (SFcompare_trans _ _ _ _ _ H1 H2) by congruence. now destruct r.
Qed.

Lemma ltb_irrefl (a : float) : (a <? a) = false.
Proof.
  destruct (a <? a) eqn:E; [|reflexivity]. apply ltb_compare in E.
  destruct (SFcompare_defined _ _ _ E) as [E' _]. congruence.
Qed.

Lemma ltb_asym (a b : float) : (a <? b) = true -> (b <? a) = false.
Proof.
  intros H. destruct (b <? a) eqn:E; [|reflexivity].
  pose proof (ltb_leb_trans _ _ _ H (ltb_leb _ _ E)) as F.
  now rewrite ltb_irrefl in F.
Qed.

Lemma ltb_not_nan (a b : float) :
  (a <? b) = true -> is_nan a = false /\ is_nan b = false.
Proof. intros H. apply ltb_leb, leb_cases in H. tauto. Qed.

Lemma zeros_not_ltb (a b : float) :
  is_zero a = true -> is_zero b = true -> (a <? b) = false.
Proof.
  intros Ha Hb. destruct (is_zero_SF a Ha) as [sa Ea].
  destruct (is_zero_SF b Hb) as [sb Eb].
  rewrite FloatAxioms.ltb_spec, Ea, Eb. reflexivity.
Qed.

Lemma neg_zero_is_zero (a : float) : is_neg_zero a = true -> is_zero a = true.
Proof.
  destruct (is_zero a) eqn:E; [reflexivity|].
  destruct (nonzero_classify a E) as [N _]. congruence.
Qed.

Lemma pos_zero_is_zero (a : float) : is_pos_zero a = true -> is_zero a = true.
Proof.
  destruct (is_zero a) eqn:E; [reflexivity|].
  destruct (nonzero_classify a E) as [_ P]. congruence.
Qed.

Lemma pos_zero_SF (a : float) :
  is_pos_zero a = true <-> Prim2SF a = S754_zero false.
Proof.
  unfold is_pos_zero. rewrite FloatAxioms.classify_spec.
  destruct (Prim2SF a) as [[]|[]| |[] m e]; cbn; split; try congruence;
    match goal with |- context [if ?c then _ else _] => destruct c end;
    congruence.
Qed.

Lemma neg_zero_SF (a : float) :
  is_neg_zero a = true <-> Prim2SF a = S754_zero true.
Proof.
  unfold is_neg_zero. rewrite FloatAxioms.classify_spec.
  destruct (Prim2SF a) as [[]|[]| |[] m e]; cbn; split; try congruence;
    match goal with |- context [if ?c then _ else _] => destruct c end;
    congruence.
Qed.

(** *** The three ranges of the clamp *)

(** Below the lower bound the clamp is the lower bound. *)
Lemma clamp_below (x lo hi : float) :
  (x <? lo) = true -> (lo <=? hi) = true -> clamp x lo hi = lo.
Proof.
  intros Hx Hb. destruct (ltb_not_nan _ _ Hx) as [Nx Nlo].
  destruct (leb_cases _ _ Hb) as (_ & Nhi & _).
  pose proof (ltb_leb_trans _ _ _ Hx Hb) as Hxh.
  assert (Hmin : Math_min hi x = x).
  { unfold Math_min. rewrite Nhi, Nx. cbn. rewrite Hxh.
    now destruct (is_neg_zero x && is_pos_zero hi). }
  unfold clamp. rewrite Hmin. unfold Math_max. rewrite Nlo, Nx. cbn.
  rewrite (ltb_asym _ _ Hx).
  destruct (is_pos_zero x && is_neg_zero lo) eqn:Z; [|reflexivity].
  apply andb_prop in Z. destruct Z as [Zx Zlo].
  rewrite zeros_not_ltb in Hx
    by auto using pos_zero_is_zero, neg_zero_is_zero.
  discriminate.
Qed.

(** Above the upper bound the clamp is the upper bound (the bounds [+0] and
    [-0], in this order, apart). *)
Lemma clamp_above (x lo hi : float) :
  (hi <? x) = true -> (lo <=? hi) = true ->
  is_pos_zero lo && is_neg_zero hi = false ->
  clamp x lo hi = hi.
Proof.
  intros Hx Hb Hz. destruct (ltb_not_nan _ _ Hx) as [Nhi Nx].
  destruct (leb_cases _ _ Hb) as (Nlo & _ & Clo).
  assert (Hmin : Math_min hi x = hi).
  { unfold Math_min. rewrite Nhi, Nx. cbn. rewrite (ltb_asym _ _ Hx).
    destruct (is_neg_zero x && is_pos_zero hi) eqn:Z; [|reflexivity].
    apply andb_prop in Z. destruct Z as [Zx Zhi].
    rewrite zeros_not_ltb in Hx
      by auto using pos_zero_is_zero, neg_zero_is_zero.
    discriminate. }
  unfold clamp. rewrite Hmin. unfold Math_max. rewrite Nlo, Nhi. cbn.
  destruct (is_pos_zero hi && is_neg_zero lo) eqn:Zc; [reflexivity|].
  destruct Clo as [Clo|Clo]; [now rewrite Clo|].
  destruct (lo <? hi); [reflexivity|].
  apply SFcompare_Eq in Clo. destruct Clo as [Clo|(s1 & s2 & E1 & E2)].
  - now apply Prim2SF_inj.
  - destruct s1, s2.
    + apply Prim2SF_inj. congruence.
    + apply neg_zero_SF in E1. apply pos_zero_SF in E2.
      rewrite E1, E2 in Zc. discriminate.
    + apply pos_zero_SF in E1. apply neg_zero_SF in E2.
      rewrite E1, E2 in Hz. discriminate.
    + apply Prim2SF_inj. congruence.
Qed.

(** With crossed bounds the clamp is the lower bound. *)
Lemma clamp_crossed (x lo hi : float) :
  (hi <? lo) = true -> is_nan x = false -> clamp x lo hi = lo.
Proof.
  intros Hc Nx. destruct (ltb_not_nan _ _ Hc) as [Nhi Nlo].
  destruct (Math_min_cases hi x Nhi Nx) as [Cm Lm].
  assert (Nm : is_nan (Math_min hi x) = false)
    by (destruct Cm as [-> | ->]; assumption).
  pose proof (leb_ltb_trans _ _ _ Lm Hc) as Hm.
  unfold clamp, Math_max. rewrite Nlo, Nm. cbn.
  rewrite (ltb_asym _ _ Hm).
  destruct (is_pos_zero (Math_min hi x) && is_neg_zero lo) eqn:Z;
    [|reflexivity].
  apply andb_prop in Z. destruct Z as [Zm Zlo].
  rewrite zeros_not_ltb in Hm
    by auto using pos_zero_is_zero, neg_zero_is_zero.
  discriminate.
Qed.

End FloatOrderMore.

(** ** The ratio of a drag, continued *)

Section DragMore.

Import JS SplitPaneContainer Spec.
Open Scope float_scope.

(** The ratio after the moves of a drag, from the state before the drag. *)
Lemma drag_ratio_after_moves
      (SP : SplitPaneConstants) (before : list Input) (dom : Dom)
      (container : Element) (startX : float)
      (earlier : list float) (currentX : float) :
  let w := run SP before (initialWorld SP) in
  let w0 := step SP (DividerMouseDown dom startX) w in
  let w1 := run SP (map DocumentMouseMove (earlier ++ [currentX])) w0 in
  dom "#split-pane-root" = Some container ->
  splitRatio (this w1) =
    dragRatio SP startX (splitRatio (this w))
              (clientWidth container - DIVIDER_WIDTH SP) currentX.
Proof.
  intros w w0 w1 Hroot.
  assert (P0 : dragInProgress w0)
    by (apply divider_down_starts_drag, reachable_paired).
  destruct (run_moves_last SP earlier currentX w0 P0) as (_ & _ & R).
  fold w1 in R. rewrite R. unfold w0. rewrite step_divider_down. cbn.
  now rewrite Hroot.
Qed.

Lemma one_minus_pos_zero (lo : float) : is_pos_zero lo = true -> 1 - lo = 1.
Proof.
  intros H. apply pos_zero_SF in H. apply Prim2SF_inj.
  rewrite FloatAxioms.sub_spec, H. reflexivity.
Qed.

(** X1: the ratio stays within the bounds: when the captured width leaves room
    for two panes of the minimum width ([minRatio <= maxRatio]), the ratio
    stored by every pointer move of a drag lies between [minRatio] and
    [maxRatio], wherever the earlier moves went. *)
Theorem drag_ratio_stays_within_bounds
  (SP : SplitPaneConstants) (before : list Input) (dom : Dom)
  (container : Element) (startX : float)
  (earlier : list float) (currentX : float) :
  let w := run SP before (initialWorld SP) in
  let width := clientWidth container - DIVIDER_WIDTH SP in
  let minRatio := MIN_WIDTH SP / width in
  let maxRatio := 1 - minRatio in
  let w0 := step SP (DividerMouseDown dom startX) w in
  let w1 := run SP (map DocumentMouseMove (earlier ++ [currentX])) w0 in
  dom "#split-pane-root" = Some container ->
  (minRatio <=? maxRatio) = true ->
  is_nan (splitRatio (this w) + (currentX - startX) / width) = false ->
  (minRatio <=? splitRatio (this w1)) = true
  /\ (splitRatio (this w1) <=? maxRatio) = true.
Proof.
  intros w width minRatio maxRatio w0 w1 Hroot Hb Hn. unfold w1, w0, w.
  rewrite (drag_ratio_after_moves SP before dom container startX earlier
             currentX Hroot).
  now apply dragRatio_within_bounds.
Qed.

Lemma drag_ratio_stays_within_bounds_witness :
  let w0 := step sampleConstants (DividerMouseDown (samplePage 1004) 300)
                 (initialWorld sampleConstants) in
  let w1 := run sampleConstants (map DocumentMouseMove [900; 20; 5000]) w0 in
  (0.2 <=? splitRatio (this w1)) = true
  /\ (splitRatio (this w1) <=? 0.8) = true.
Proof.
  exact (drag_ratio_stays_within_bounds sampleConstants [] (samplePage 1004)
           (mkElement (fun _ => true) 1004) 300 [900; 20] 5000
           eq_refl eq_refl eq_refl).
Defined.

(** X2: the two ends of the range: with ordered bounds, a pointer move whose
    candidate [startRatio + (currentX - startX) / width] is below [minRatio]
    stores [minRatio], and one whose candidate is above [maxRatio] stores
    [maxRatio]. *)
Theorem drag_ratio_pinned_at_bounds
  (SP : SplitPaneConstants) (before : list Input) (dom : Dom)
  (container : Element) (startX : float)
  (earlier : list float) (currentX : float) :
  let w := run SP before (initialWorld SP) in
  let width := clientWidth container - DIVIDER_WIDTH SP in
  let minRatio := MIN_WIDTH SP / width in
  let maxRatio := 1 - minRatio in
  let candidate := splitRatio (this w) + (currentX - startX) / width in
  let w0 := step SP (DividerMouseDown dom startX) w in
  let w1 := run SP (map DocumentMouseMove (earlier ++ [currentX])) w0 in
  dom "#split-pane-root" = Some container ->
  (minRatio <=? maxRatio) = true ->
  ((candidate <? minRatio) = true -> splitRatio (this w1) = minRatio)
  /\ ((maxRatio <? candidate) = true -> splitRatio (this w1) = maxRatio).
Proof.
  intros w width minRatio maxRatio candidate w0 w1 Hroot Hb. unfold w1, w0, w.
  rewrite (drag_ratio_after_moves SP before dom container startX earlier
             currentX Hroot).
  unfold dragRatio. fold width. fold minRatio. fold maxRatio.
  cbn zeta. fold minRatio maxRatio. fold w. fold candidate. split.
  - intros Hc. now apply clamp_below.
  - intros Hc. apply clamp_above; [exact Hc|exact Hb|].
    destruct (is_pos_zero minRatio) eqn:Z; [|reflexivity].
    unfold maxRatio. now rewrite (one_minus_pos_zero _ Z).
Qed.

Lemma drag_ratio_pinned_at_bounds_witness :
  let w0 := step sampleConstants (DividerMouseDown (samplePage 1004) 300)
                 (initialWorld sampleConstants) in
  splitRatio (this (run sampleConstants (map DocumentMouseMove [310; -50]) w0))
    = 0.2
  /\ splitRatio (this (run sampleConstants (map DocumentMouseMove [5000]) w0))
     = 0.8.
Proof.
  destruct (drag_ratio_pinned_at_bounds sampleConstants [] (samplePage 1004)
              (mkElement (fun _ => true) 1004) 300 [310] (-50) eq_refl eq_refl)
    as [L _].
  destruct (drag_ratio_pinned_at_bounds sampleConstants [] (samplePage 1004)
              (mkElement (fun _ => true) 1004) 300 [] 5000 eq_refl eq_refl)
    as [_ R].
  split; [exact (L eq_refl)|exact (R eq_refl)].
Defined.

(** X3: a container too narrow for two panes of the minimum width
    ([maxRatio < minRatio]): every pointer move of a drag whose candidate
    ratio [startRatio + (currentX - startX) / width] is a number (not NaN)
    stores [minRatio], which then lies above [maxRatio]; a move whose
    candidate is NaN stores NaN. *)
Theorem narrow_container_pins_ratio
  (SP : SplitPaneConstants) (before : list Input) (dom : Dom)
  (container : Element) (startX : float)
  (earlier : list float) (currentX : float) :
  let w := run SP before (initialWorld SP) in
  let width := clientWidth container - DIVIDER_WIDTH SP in
  let minRatio := MIN_WIDTH SP / width in
  let maxRatio := 1 - minRatio in
  let candidate := splitRatio (this w) + (currentX - startX) / width in
  let w0 := step SP (DividerMouseDown dom startX) w in
  let w1 := run SP (map DocumentMouseMove (earlier ++ [currentX])) w0 in
  dom "#split-pane-root" = Some container ->
  (maxRatio <? minRatio) = true ->
  (is_nan candidate = false -> splitRatio (this w1) = minRatio)
  /\ (is_nan candidate = true -> is_nan (splitRatio (this w1)) = true).
Proof.
  intros w width minRatio maxRatio candidate w0 w1 Hroot Hc. unfold w1, w0, w.
  rewrite (drag_ratio_after_moves SP before dom container startX earlier
             currentX Hroot).
  split; intros Hn; [now apply clamp_crossed|now apply clamp_nan].
Qed.

(** On a root of 324 (width 320, minimum ratio 0.625, maximum 0.375) the
    moves store 0.625.  On a root as wide as the divider the width is zero,
    the bounds are the two infinities, crossed, and a move back to the start
    position has the candidate 0.5 + 0/0: it stores NaN. *)
Lemma narrow_container_pins_ratio_witness :
  let w0 := step sampleConstants (DividerMouseDown (samplePage 324) 100)
                 (initialWorld sampleConstants) in
  let z0 := step sampleConstants (DividerMouseDown (samplePage 4) 100)
                 (initialWorld sampleConstants) in
  splitRatio (this (run sampleConstants (map DocumentMouseMove [40; 150]) w0))
    = 0.625
  /\ splitRatio (this (run sampleConstants (map DocumentMouseMove [10]) w0))
     = 0.625
  /\ is_nan
       (splitRatio (this (run sampleConstants (map DocumentMouseMove [100]) z0)))
     = true.
Proof.
  split; [|split].
  - exact (proj1 (narrow_container_pins_ratio sampleConstants []
                    (samplePage 324) (mkElement (fun _ => true) 324) 100
                    [40] 150 eq_refl eq_refl) eq_refl).
  - exact (proj1 (narrow_container_pins_ratio sampleConstants []
                    (samplePage 324) (mkElement (fun _ => true) 324) 100
                    [] 10 eq_refl eq_refl) eq_refl).
  - exact (proj2 (narrow_container_pins_ratio sampleConstants []
                    (samplePage 4) (mkElement (fun _ => true) 4) 100
                    [] 100 eq_refl eq_refl) eq_refl).
Defined.

(** X4: a root that is exactly as wide as the divider gives a captured
    width of zero; every pointer move of the drag then stores a ratio that
    is not finite (an infinity or NaN), whatever the constants, the start
    ratio and the positions. *)
Theorem zero_width_drag_is_never_finite
  (SP : SplitPaneConstants) (before : list Input) (dom : Dom)
  (container : Element) (startX : float)
  (earlier : list float) (currentX : float) :
  let w := run SP before (initialWorld SP) in
  let w0 := step SP (DividerMouseDown dom startX) w in
  let w1 := run SP (map DocumentMouseMove (earlier ++ [currentX])) w0 in
  dom "#split-pane-root" = Some container ->
  is_zero (clientWidth container - DIVIDER_WIDTH SP) = true ->
  is_finite (splitRatio (this w1)) = false.
Proof.
  intros w w0 w1 Hroot Hz. unfold w1, w0, w.
  rewrite (drag_ratio_after_moves SP before dom container startX earlier
             currentX Hroot).
  apply nonfinite_not_finite. unfold dragRatio.
  apply clamp_nonfinite.
  - apply add_nonfinite, div_zero_nonfinite, Hz.
  - apply div_zero_nonfinite, Hz.
  - apply sub_nonfinite, div_zero_nonfinite, Hz.
Qed.

Lemma zero_width_drag_is_never_finite_witness :
  let w0 := step sampleConstants (DividerMouseDown (samplePage 4) 100)
                 (initialWorld sampleConstants) in
  is_finite
    (splitRatio (this (run sampleConstants (map DocumentMouseMove [110; 100]) w0)))
  = false.
Proof.
  exact (zero_width_drag_is_never_finite sampleConstants [] (samplePage 4)
           (mkElement (fun _ => true) 4) 100 [110] 100 eq_refl eq_refl).
Defined.

End DragMore.

(** ** What the inputs add to the trace *)

Section TraceFacts.

Import JS SplitPaneContainer Spec Traces.

Variable SP : SplitPaneConstants.

Lemma set_this_same (w : World) : set_this (this w) w = w.
Proof. now destruct w. Qed.

Lemma updated_trace (changed : list string) (w : World) :
  trace (updated changed w) =
    trace w ++ (if existsb (String.eqb "splitRatio") changed
                   && negb (isDragging (this w))
                then [RefitRequested] else []).
Proof.
  unfold updated.
  destruct (existsb (String.eqb "splitRatio") changed
            && negb (isDragging (this w))); cbn; [reflexivity|].
  now rewrite app_nil_r.
Qed.

Lemma step_unchanged (i : Input) (w : World) :
  i <> Connected -> (forall ps, i <> AssignPanes ps) ->
  this (deliver SP i w) = this w -> step SP i w = deliver SP i w.
Proof. apply step_same_component. Qed.

(** While Lit holds the updates back, a turn is the handler alone. *)
Lemma step_before_first_update (i : Input) (w : World) :
  hasUpdated w = false -> i <> Connected -> step SP i w = deliver SP i w.
Proof. intros Hu Hi. unfold step. rewrite Hu. destruct i; congruence. Qed.

Lemma step_first_connection (w : World) :
  hasUpdated w = false ->
  step SP Connected w = firstUpdate (connectedCallback w).
Proof. intros Hu. unfold step. now rewrite Hu. Qed.

(** One turn of the event loop adds [stepEffects] to the trace, and nothing
    else. *)
Lemma step_effects (i : Input) (w : World) :
  trace (step SP i w) = trace w ++ stepEffects i w.
Proof.
  destruct i; cbn [stepEffects].
  - rewrite step_divider_down. cbn. now rewrite app_nil_r.
  - destruct (dispatchAll_this (handlePaneMouseDown dom target (this w)) w)
      as (A & _ & C).
    assert (T : this (deliver SP (ContainerMouseDown dom target) w) = this w)
      by (cbn [deliver];
          now destruct (registered mousedownListener (ownListeners w))).
    rewrite step_unchanged by (discriminate || exact T). cbn [deliver].
    destruct (registered mousedownListener (ownListeners w));
      [exact C|now rewrite app_nil_r].
  - rewrite app_nil_r.
    destruct (isDragging (this w)) eqn:D.
    + rewrite step_keeps_dragging; try discriminate; cbn [deliver];
        destruct (registered mousemoveListener (documentListeners w));
        rewrite ?handleMouseMove_dragging by exact D; auto.
    + assert (E : deliver SP (DocumentMouseMove clientX) w = w).
      { cbn [deliver].
        destruct (registered mousemoveListener (documentListeners w));
          [|reflexivity].
        rewrite handleMouseMove_idle by exact D. apply set_this_same. }
      rewrite step_unchanged by (discriminate || now rewrite E).
      now rewrite E.
  - destruct (registered mouseupListener (documentListeners w)) eqn:R;
      cbn [andb].
    + destruct (isDragging (this w)) eqn:D.
      * unfold step. cbn [deliver]. rewrite R. unfold handleMouseUp.
        rewrite D. cbn. unfold changedProperties. cbn.
        rewrite Z.eqb_refl, D, notEqual_same. cbn.
        unfold updated, refitAllTerminals, emit. cbn.
        rewrite <- app_assoc. now destruct (hasUpdated w).
      * assert (E : deliver SP DocumentMouseUp w = w)
          by (cbn [deliver]; rewrite R; unfold handleMouseUp; now rewrite D).
        rewrite step_unchanged by (discriminate || now rewrite E).
        now rewrite E, app_nil_r.
    + assert (E : deliver SP DocumentMouseUp w = w)
        by (cbn [deliver]; now rewrite R).
      rewrite step_unchanged by (discriminate || now rewrite E).
      now rewrite E, app_nil_r.
  - destruct (hasUpdated w) eqn:U; cbn [negb andb].
    + unfold step. rewrite U. cbn [deliver].
      change (this (connectedCallback w)) with (this w).
      rewrite changed_nothing by discriminate. cbn. now rewrite app_nil_r.
    + rewrite step_first_connection by exact U. unfold firstUpdate.
      rewrite updated_trace. reflexivity.
  - rewrite step_unchanged by (discriminate || reflexivity).
    cbn. now rewrite app_nil_r.
  - destruct (hasUpdated w) eqn:U; cbn [andb].
    + unfold step. rewrite U. cbn [deliver]. unfold changedProperties. cbn.
      rewrite Z.eqb_refl, Bool.eqb_reflx. cbn.
      destruct (notEqual r (splitRatio (this w))) eqn:N; cbn.
      * rewrite updated_trace. cbn. reflexivity.
      * now rewrite app_nil_r.
    + rewrite step_before_first_update by (exact U || discriminate).
      cbn. now rewrite app_nil_r.
  - rewrite app_nil_r. destruct (hasUpdated w) eqn:U.
    + unfold step. rewrite U. cbn [deliver]. unfold changedProperties. cbn.
      rewrite notEqual_same, Bool.eqb_reflx. cbn.
      destruct (negb (activePaneIndex (this w) =? i)%Z); cbn;
        rewrite ?updated_trace; cbn; rewrite ?app_nil_r; reflexivity.
    + now rewrite step_before_first_update by (exact U || discriminate).
  - rewrite app_nil_r. destruct (hasUpdated w) eqn:U.
    + unfold step. rewrite U. cbn [deliver]. unfold changedProperties. cbn.
      rewrite Z.eqb_refl, notEqual_same, Bool.eqb_reflx. cbn.
      rewrite ?updated_trace; cbn; rewrite ?app_nil_r; reflexivity.
    + now rewrite step_before_first_update by (exact U || discriminate).
Qed.

Lemma dispatchAll_world (evs : list CustomEvent) (w : World) :
  dispatchAll evs w =
    mkWorld (this w) (documentListeners w) (ownListeners w) (userSelect w)
            (cursor w) (trace w ++ map Dispatched evs) (hasUpdated w).
Proof.
  revert w. induction evs as [|e evs IH]; intros w; cbn.
  - rewrite app_nil_r. now destruct w.
  - rewrite IH. cbn. now rewrite <- app_assoc.
Qed.

(** [updated] touches nothing but the trace. *)
Lemma updated_frame (changed : list string) (w : World) :
  ownListeners (updated changed w) = ownListeners w
  /\ userSelect (updated changed w) = userSelect w
  /\ cursor (updated changed w) = cursor w.
Proof.
  unfold updated.
  destruct (existsb (String.eqb "splitRatio") changed
            && negb (isDragging (this w))); auto.
Qed.

Lemma step_frame (i : Input) (w : World) :
  ownListeners (step SP i w) = ownListeners (deliver SP i w)
  /\ userSelect (step SP i w) = userSelect (deliver SP i w)
  /\ cursor (step SP i w) = cursor (deliver SP i w).
Proof.
  unfold step. destruct (hasUpdated w).
  - destruct (changedProperties i (this w) (this (deliver SP i w))); [auto|].
    apply updated_frame.
  - destruct i; auto. unfold firstUpdate.
    apply (updated_frame initialProperties
             (set_hasUpdated true (deliver SP Connected w))).
Qed.

(** [updated] and the handlers leave Lit's flag alone: it is set by the
    first update, which the first connection starts, and stays set. *)
Lemma updated_hasUpdated (changed : list string) (w : World) :
  hasUpdated (updated changed w) = hasUpdated w.
Proof.
  unfold updated.
  now destruct (existsb (String.eqb "splitRatio") changed
                && negb (isDragging (this w))).
Qed.

Lemma deliver_hasUpdated (i : Input) (w : World) :
  hasUpdated (deliver SP i w) = hasUpdated w.
Proof.
  destruct i; cbn [deliver]; try reflexivity.
  - destruct (registered mousedownListener (ownListeners w)); [|reflexivity].
    now rewrite dispatchAll_world.
  - now destruct (registered mousemoveListener (documentListeners w)).
  - destruct (registered mouseupListener (documentListeners w)); [|reflexivity].
    unfold handleMouseUp. now destruct (isDragging (this w)).
Qed.

Lemma step_hasUpdated (i : Input) (w : World) :
  hasUpdated (step SP i w) =
    hasUpdated w || match i with Connected => true | _ => false end.
Proof.
  unfold step. destruct (hasUpdated w) eqn:U.
  - destruct (changedProperties i (this w) (this (deliver SP i w)));
      rewrite ?updated_hasUpdated, deliver_hasUpdated; exact U.
  - destruct i; rewrite ?deliver_hasUpdated; try exact U.
    unfold firstUpdate. now rewrite updated_hasUpdated.
Qed.

(** The drag flag after one turn. *)
Lemma step_isDragging (i : Input) (w : World) :
  isDragging (this (step SP i w)) =
    match i with
    | DividerMouseDown _ _ => true
    | DocumentMouseUp =>
        if registered mouseupListener (documentListeners w) then false
        else isDragging (this w)
    | _ => isDragging (this w)
    end.
Proof.
  destruct (step_this SP i w) as [-> _]. destruct i; cbn [deliver];
    try reflexivity.
  - destruct (registered mousedownListener (ownListeners w)); [|reflexivity].
    now rewrite dispatchAll_world.
  - destruct (registered mousemoveListener (documentListeners w));
      [|reflexivity].
    unfold handleMouseMove.
    destruct (isDragging (this w)) eqn:D; cbn; [exact D|].
    now rewrite D.
  - destruct (registered mouseupListener (documentListeners w));
      [|reflexivity].
    unfold handleMouseUp. now destruct (isDragging (this w)) eqn:D.
Qed.

End TraceFacts.

(** ** What the container raises, and when *)

Section Raising.

Import JS SplitPaneContainer Spec Traces.

(** X5: pointer moves, a pointer-down on the divider, disconnecting and the
    assignments of [panes] and [activePaneIndex] never raise anything, in
    any state of the component.  Connecting is not among them: the first
    connection starts Lit's first update, which reports [splitRatio] as
    changed and so requests one refit (none during a drag); connecting a
    component that has been through its first update raises nothing.  After
    a connection the component has been through its first update. *)
Theorem quiet_inputs_raise_nothing
  (SP : SplitPaneConstants) (i : Input) (w : World) :
  (quietInput i = true -> trace (step SP i w) = trace w)
  /\ trace (step SP Connected w) =
       trace w ++ (if negb (hasUpdated w) && negb (isDragging (this w))
                   then [RefitRequested] else [])
  /\ hasUpdated (step SP Connected w) = true.
Proof.
  split; [|split].
  - intros H. rewrite step_effects.
    destruct i; try discriminate; cbn; now rewrite app_nil_r.
  - apply step_effects.
  - rewrite step_hasUpdated. apply orb_true_r.
Qed.

Lemma quiet_inputs_raise_nothing_witness :
  let w0 := step sampleConstants (AssignPanes samplePanes)
                 (initialWorld sampleConstants) in
  let w1 := step sampleConstants Connected w0 in
  let w := step sampleConstants (ContainerMouseDown (samplePage 1004) 2) w1 in
  trace w0 = []
  /\ trace w1 = [RefitRequested]
  /\ trace (step sampleConstants Connected w1) = [RefitRequested]
  /\ trace (step sampleConstants (DocumentMouseMove 40) w) =
       [RefitRequested; Dispatched (paneFocus 1)]
  /\ trace (step sampleConstants (AssignActivePaneIndex 1) w) =
       [RefitRequested; Dispatched (paneFocus 1)].
Proof.
  intros w0 w1 w.
  split; [exact (proj1 (quiet_inputs_raise_nothing sampleConstants
                          (AssignPanes samplePanes)
                          (initialWorld sampleConstants)) eq_refl)|].
  split; [exact (proj1 (proj2 (quiet_inputs_raise_nothing sampleConstants
                                 Connected w0)))|].
  split; [exact (proj1 (proj2 (quiet_inputs_raise_nothing sampleConstants
                                 Connected w1)))|].
  split.
  - exact (proj1 (quiet_inputs_raise_nothing sampleConstants
                    (DocumentMouseMove 40) w) eq_refl).
  - exact (proj1 (quiet_inputs_raise_nothing sampleConstants
                    (AssignActivePaneIndex 1) w) eq_refl).
Defined.



Lemma handlePaneMouseDown_cases (dom : Dom) (target : Node) (c : Component) :
  handlePaneMouseDown dom target c = []
  \/ exists i : nat,
      handlePaneMouseDown dom target c = [paneFocus i]
      /\ withinDivider dom target = false
      /\ firstPane dom target (panes c) = Some i
      /\ Z.eqb (activePaneIndex c) (Z.of_nat i) = false.
Proof.
  assert (L : paneLoop dom (activePaneIndex c) target 0 (panes c) = []
              \/ exists i : nat,
                  paneLoop dom (activePaneIndex c) target 0 (panes c)
                  = [paneFocus i]
                  /\ firstPane dom target (panes c) = Some i
                  /\ Z.eqb (activePaneIndex c) (Z.of_nat i) = false).
  { rewrite paneLoop_firstIndex. unfold firstPane.
    destruct (firstIndex (withinPane dom target) (panes c)) as [i|];
      [|now left].
    cbn [Nat.add].
    destruct (Z.eqb (activePaneIndex c) (Z.of_nat i)) eqn:E; [now left|].
    right. exists i. auto. }
  unfold handlePaneMouseDown, withinDivider.
  destruct (dom "#split-divider") as [divider|].
  - destruct (contains divider target); [now left|].
    destruct L as [L|(i & L & F & E)]; [now left|]. right. exists i. auto.
  - destruct L as [L|(i & L & F & E)]; [now left|]. right. exists i. auto.
Qed.

(** X7: a pointer-down raises at most one event, and the event is a
    [pane-focus] whose index is that of an existing, defined pane, other
    than the active one, whose element contains the target. *)
Theorem pane_focus_names_an_existing_pane
  (dom : Dom) (target : Node) (c : Component) (ev : CustomEvent) :
  In ev (handlePaneMouseDown dom target c) ->
  exists (index : nat) (pane : SplitPane),
    handlePaneMouseDown dom target c = [ev]
    /\ ev = paneFocus index
    /\ (index < List.length (panes c))%nat
    /\ nth_error (panes c) index = Some (Some pane)
    /\ Z.of_nat index <> activePaneIndex c
    /\ withinPane dom target (Some pane) = true.
Proof.
  intros Hin.
  destruct (handlePaneMouseDown_cases dom target c)
    as [E|(i & E & _ & F & A)]; rewrite E in Hin; [contradiction|].
  destruct Hin as [<-|[]].
  apply (firstIndex_spec (withinPane dom target) None) in F; [|reflexivity].
  destruct F as [Hi _].
  destruct (nth_error (panes c) i) as [[pane|]|] eqn:N.
  - exists i, pane. rewrite (nth_error_nth _ _ None N) in Hi.
    repeat split; auto.
    + apply nth_error_Some. congruence.
    + intros Heq. rewrite <- Heq, Z.eqb_refl in A. discriminate.
  - rewrite (nth_error_nth _ _ None N) in Hi. discriminate.
  - apply nth_error_None in N. rewrite nth_overflow in Hi by exact N.
    discriminate.
Qed.

Lemma pane_focus_names_an_existing_pane_witness :
  let c := mkComponent samplePanes 0%Z 0.5%float false 0%float 0%float 0%float in
  exists (index : nat) (pane : SplitPane),
    handlePaneMouseDown (samplePage 1004) 2 c = [paneFocus 1]
    /\ paneFocus 1 = paneFocus index
    /\ (index < List.length (panes c))%nat
    /\ nth_error (panes c) index = Some (Some pane)
    /\ Z.of_nat index <> activePaneIndex c
    /\ withinPane (samplePage 1004) 2 (Some pane) = true.
Proof.
  intros c.
  exact (pane_focus_names_an_existing_pane (samplePage 1004) 2 c (paneFocus 1)
           (or_introl eq_refl)).
Defined.

End Raising.

(** ** Invariants of the trace and of the page *)

Section TraceInvariants.

Import JS SplitPaneContainer Spec Traces.

Variable SP : SplitPaneConstants.

Lemma resizeThenRefit_app (t d : list Effect) :
  resizeThenRefit t = true -> resizeThenRefit d = true ->
  resizeThenRefit (t ++ d) = true.
Proof.
  induction t as [|e t IH]; intros Ht Hd; [exact Hd|].
  cbn [app resizeThenRefit] in *.
  destruct (isSplitResize e).
  - destruct t as [|[ev|] t']; try discriminate.
    cbn [app]. apply (IH Ht Hd).
  - apply (IH Ht Hd).
Qed.

Lemma resizeThenRefit_split (pre post : list Effect) (e : Effect) :
  resizeThenRefit (pre ++ e :: post) = true -> isSplitResize e = true ->
  exists post', post = RefitRequested :: post'.
Proof.
  induction pre as [|x pre IH]; cbn [app resizeThenRefit]; intros H He.
  - rewrite He in H. destruct post as [|[ev|] post']; try discriminate. eauto.
  - destruct (isSplitResize x).
    + destruct (pre ++ e :: post) as [|[ev|] rest] eqn:E; try discriminate.
      apply (IH H He).
    + apply (IH H He).
Qed.

Lemma paneFocus_effects (dom : Dom) (target : Node) (c : Component) :
  filter isSplitResize (map Dispatched (handlePaneMouseDown dom target c)) = []
  /\ resizeThenRefit (map Dispatched (handlePaneMouseDown dom target c)) = true.
Proof.
  destruct (handlePaneMouseDown_cases dom target c) as [-> |(i & -> & _)];
    split; reflexivity.
Qed.

Lemma stepEffects_paired (i : Input) (w : World) :
  resizeThenRefit (stepEffects i w) = true.
Proof.
  destruct i; cbn; try reflexivity.
  - destruct (registered mousedownListener (ownListeners w)); [|reflexivity].
    apply paneFocus_effects.
  - now destruct (registered mouseupListener (documentListeners w)
                  && isDragging (this w)).
  - now destruct (negb (hasUpdated w) && negb (isDragging (this w))).
  - now destruct (hasUpdated w && notEqual r (splitRatio (this w))
                  && negb (isDragging (this w))).
Qed.

Lemma run_trace_paired (inputs : list Input) (w : World) :
  resizeThenRefit (trace w) = true ->
  resizeThenRefit (trace (run SP inputs w)) = true.
Proof.
  revert w. induction inputs as [|i inputs IH]; intros w H; cbn; [exact H|].
  apply IH. rewrite step_effects.
  apply resizeThenRefit_app; [exact H|apply stepEffects_paired].
Qed.

(** X8: in every trace of the component, each [split-resize] is followed at
    once by the request to refit the terminals. *)
Theorem split_resize_followed_by_refit
  (inputs : list Input) (pre post : list Effect) (ev : CustomEvent) :
  trace (run SP inputs (initialWorld SP)) = pre ++ Dispatched ev :: post ->
  type ev = "split-resize" ->
  exists post', post = RefitRequested :: post'.
Proof.
  intros Ht Hty.
  apply (resizeThenRefit_split pre post (Dispatched ev)).
  - rewrite <- Ht. now apply run_trace_paired.
  - cbn. now rewrite Hty.
Qed.

Lemma countSplitResize_app (t d : list Effect) :
  countSplitResize (t ++ d) = countSplitResize t + countSplitResize d.
Proof. unfold countSplitResize. now rewrite filter_app, length_app. Qed.

Lemma step_counts (i : Input) (w : World) :
  countSplitResize (trace (step SP i w)) + dragFlag (step SP i w)
  <= countSplitResize (trace w) + dragFlag w
     + (if isDividerDown i then 1 else 0)
  /\ countSplitResize (trace (step SP i w))
     <= countSplitResize (trace w) + (if isRelease i then 1 else 0).
Proof.
  rewrite step_effects, countSplitResize_app. unfold dragFlag.
  rewrite step_isDragging.
  destruct i; cbn [stepEffects isDividerDown isRelease].
  - cbn. destruct (isDragging (this w)); lia.
  - assert (E : countSplitResize
                  (if registered mousedownListener (ownListeners w)
                   then map Dispatched (handlePaneMouseDown dom target (this w))
                   else []) = 0).
    { destruct (registered mousedownListener (ownListeners w)); [|reflexivity].
      unfold countSplitResize.
      now rewrite (proj1 (paneFocus_effects dom target (this w))). }
    rewrite E. lia.
  - cbn. lia.
  - destruct (registered mouseupListener (documentListeners w));
      destruct (isDragging (this w)); cbn; lia.
  - destruct (negb (hasUpdated w) && negb (isDragging (this w))); cbn; lia.
  - cbn. lia.
  - destruct (hasUpdated w && notEqual r (splitRatio (this w))
              && negb (isDragging (this w)));
      cbn; lia.
  - cbn. lia.
  - cbn. lia.
Qed.

Lemma run_counts (inputs : list Input) (w : World) :
  countSplitResize (trace (run SP inputs w)) + dragFlag (run SP inputs w)
  <= countSplitResize (trace w) + dragFlag w + countInputs isDividerDown inputs
  /\ countSplitResize (trace (run SP inputs w))
     <= countSplitResize (trace w) + countInputs isRelease inputs.
Proof.
  revert w. induction inputs as [|i inputs IH]; intros w; cbn.
  - unfold countInputs. cbn. lia.
  - destruct (IH (step SP i w)) as [A B]. destruct (step_counts i w) as [C D].
    unfold countInputs in *. cbn [filter].
    destruct (isDividerDown i), (isRelease i); cbn [List.length]; lia.
Qed.

(** X9: the component never publishes more ratios than drags were started, nor
    more than releases arrived: the number of [split-resize] events of a
    trace is at most the number of pointer-downs on the divider and at most
    the number of releases among the inputs. *)
Theorem split_resize_needs_a_drag (inputs : list Input) :
  countSplitResize (trace (run SP inputs (initialWorld SP)))
  <= countInputs isDividerDown inputs
  /\ countSplitResize (trace (run SP inputs (initialWorld SP)))
     <= countInputs isRelease inputs.
Proof.
  destruct (run_counts inputs (initialWorld SP)) as [A B].
  cbn in A, B. lia.
Qed.

End TraceInvariants.

Section TraceExamples.

Import JS SplitPaneContainer Spec Traces.

(** Two drags on the sample page, a click in between: after the refit of
    the first update, each published ratio has its refit right behind. *)
Lemma split_resize_followed_by_refit_witness :
  let inputs :=
    [AssignPanes samplePanes; Connected;
     DividerMouseDown (samplePage 1004) 300; DocumentMouseMove 450;
     DocumentMouseUp; ContainerMouseDown (samplePage 1004) 2;
     DividerMouseDown (samplePage 1004) 450; DocumentMouseMove 300;
     DocumentMouseUp] in
  trace (run sampleConstants inputs (initialWorld sampleConstants)) =
    [RefitRequested;
     Dispatched (splitResize 0.65); RefitRequested;
     Dispatched (paneFocus 1);
     Dispatched (splitResize 0.5); RefitRequested]
  /\ exists post', [RefitRequested] = RefitRequested :: post'.
Proof.
  intros inputs. split; [reflexivity|].
  exact (split_resize_followed_by_refit sampleConstants inputs
           [RefitRequested;
            Dispatched (splitResize 0.65); RefitRequested;
            Dispatched (paneFocus 1)]
           [RefitRequested] (splitResize 0.5) eq_refl eq_refl).
Defined.

End TraceExamples.

(** ** What the container keeps to itself *)

Section Ownership.

Import JS SplitPaneContainer Spec Traces.

Lemma step_panes (SP : SplitPaneConstants) (i : Input) (w : World) :
  assignsPanes i = false ->
  activePaneIndex (this (step SP i w)) = activePaneIndex (this w)
  /\ panes (this (step SP i w)) = panes (this w).
Proof.
  intros Hi. destruct (step_this SP i w) as [-> _].
  destruct i; try discriminate; cbn [deliver]; auto.
  - destruct (registered mousedownListener (ownListeners w)); [|auto].
    now rewrite dispatchAll_world.
  - destruct (registered mousemoveListener (documentListeners w)); [|auto].
    unfold handleMouseMove. now destruct (isDragging (this w)).
  - destruct (registered mouseupListener (documentListeners w)); [|auto].
    unfold handleMouseUp. now destruct (isDragging (this w)).
Qed.

(** X10: the container only notifies: across any inputs without an assignment by
    the owner, [activePaneIndex] and [panes] keep their values, whatever is
    clicked or dragged. *)
Theorem focus_is_left_to_the_owner
  (SP : SplitPaneConstants) (inputs : list Input) (w : World) :
  forallb (fun i => negb (assignsPanes i)) inputs = true ->
  activePaneIndex (this (run SP inputs w)) = activePaneIndex (this w)
  /\ panes (this (run SP inputs w)) = panes (this w).
Proof.
  revert w. induction inputs as [|i inputs IH]; intros w H; cbn; [auto|].
  cbn in H. apply andb_prop in H. destruct H as [Hi H].
  apply negb_true_iff in Hi.
  destruct (IH (step SP i w) H) as [A B].
  destruct (step_panes SP i w Hi) as [C D].
  rewrite A, B, C, D. auto.
Qed.

(** On the sample page: after the refit of the first update, two clicks in
    the right pane, the owner not yet having assigned the index, raise
    [pane-focus] twice. *)
Lemma focus_is_left_to_the_owner_witness :
  let w := run sampleConstants [AssignPanes samplePanes; Connected]
               (initialWorld sampleConstants) in
  let clicks :=
    [ContainerMouseDown (samplePage 1004) 2;
     ContainerMouseDown (samplePage 1004) 2] in
  activePaneIndex (this (run sampleConstants clicks w)) = 0%Z
  /\ trace (run sampleConstants clicks w) =
       [RefitRequested; Dispatched (paneFocus 1); Dispatched (paneFocus 1)].
Proof.
  intros w clicks. split; [|reflexivity].
  exact (proj1 (focus_is_left_to_the_owner sampleConstants clicks w eq_refl)).
Defined.

Lemma step_ownListeners (SP : SplitPaneConstants) (i : Input) (w : World) :
  ownListeners (step SP i w) =
    match i with
    | Connected => addEventListener mousedownListener (ownListeners w)
    | Disconnected => removeEventListener mousedownListener (ownListeners w)
    | _ => ownListeners w
    end.
Proof.
  destruct (step_frame SP i w) as [-> _].
  destruct i; cbn [deliver]; try reflexivity.
  - destruct (registered mousedownListener (ownListeners w)); [|reflexivity].
    now rewrite dispatchAll_world.
  - now destruct (registered mousemoveListener (documentListeners w)).
  - destruct (registered mouseupListener (documentListeners w)); [|reflexivity].
    unfold handleMouseUp. now destruct (isDragging (this w)).
Qed.

Lemma run_connectionPaired (SP : SplitPaneConstants) (inputs : list Input)
      (w : World) :
  connectionPaired w -> connectionPaired (run SP inputs w).
Proof.
  revert w. induction inputs as [|i inputs IH]; intros w H; cbn; [exact H|].
  apply IH. unfold connectionPaired in *. rewrite step_ownListeners.
  destruct i; try exact H; destruct H as [-> | ->]; cbn; auto.
Qed.

Lemma connected_again (w : World) :
  ownListeners w = [mousedownListener] -> connectedCallback w = w.
Proof. destruct w. cbn. now intros ->. Qed.

(** X11: the capture listener follows the connection: on every reachable state,
    disconnecting removes it, and a pointer-down on the disconnected
    component changes nothing; connecting puts it in place once, also when
    repeated, and pointer-downs then raise what the arbiter decides. *)
Theorem clicks_need_the_connection
  (SP : SplitPaneConstants) (inputs : list Input) (dom : Dom) (target : Node) :
  let w := run SP inputs (initialWorld SP) in
  let off := step SP Disconnected w in
  let on := step SP Connected w in
  ownListeners off = []
  /\ step SP (ContainerMouseDown dom target) off = off
  /\ ownListeners on = [mousedownListener]
  /\ step SP Connected on = on
  /\ trace (step SP (ContainerMouseDown dom target) on) =
       trace on ++ map Dispatched (handlePaneMouseDown dom target (this on)).
Proof.
  intros w off on.
  assert (P : connectionPaired w)
    by (apply run_connectionPaired; now left).
  assert (Eoff : ownListeners off = []).
  { unfold off. rewrite step_ownListeners.
    destruct P as [-> | ->]; reflexivity. }
  assert (Eon : ownListeners on = [mousedownListener]).
  { unfold on. rewrite step_ownListeners.
    destruct P as [-> | ->]; reflexivity. }
  split; [exact Eoff|]. split; [|split; [exact Eon|split]].
  - rewrite step_unchanged; try discriminate; cbn [deliver]; rewrite ?Eoff;
      reflexivity.
  - assert (U : hasUpdated on = true)
      by (unfold on; rewrite step_hasUpdated; apply orb_true_r).
    unfold step. rewrite U. cbn [deliver].
    rewrite (connected_again on Eon), changed_nothing by discriminate.
    reflexivity.
  - rewrite step_effects. cbn. now rewrite Eon.
Qed.

End Ownership.

(** ** The styles of the page during a drag *)

Section BodyStyles.

Import JS SplitPaneContainer Spec Traces.

Lemma step_styles (SP : SplitPaneConstants) (i : Input) (w : World) :
  dragInProgress (step SP i w) ->
  listenersPaired w -> (dragInProgress w -> dragStyles w) ->
  dragStyles (step SP i w).
Proof.
  intros [Hd Hl] P S. unfold dragStyles in *.
  destruct (step_this SP i w) as [Et El]. rewrite Et in Hd. rewrite El in Hl.
  destruct (step_frame SP i w) as (_ & -> & ->).
  destruct i; cbn [deliver] in *.
  - auto.
  - destruct (registered mousedownListener (ownListeners w)).
    + rewrite dispatchAll_world in *. cbn in *. apply S. now split.
    + apply S. now split.
  - destruct (registered mousemoveListener (documentListeners w)) eqn:R.
    + cbn in *. apply S. split; [|exact Hl].
      unfold handleMouseMove in Hd.
      destruct (isDragging (this w)) eqn:D; [reflexivity|].
      cbn in Hd. congruence.
    + apply S. now split.
  - destruct (registered mouseupListener (documentListeners w)) eqn:R.
    + unfold handleMouseUp in *.
      destruct (isDragging (this w)) eqn:D; cbn in *; [discriminate|].
      congruence.
    + apply S. now split.
  - apply S. now split.
  - cbn in Hl. exfalso.
    destruct P as [P|[_ P]]; rewrite P in Hl; discriminate.
  - apply S. now split.
  - apply S. now split.
  - apply S. now split.
Qed.

Lemma run_styles (SP : SplitPaneConstants) (inputs : list Input) (w : World) :
  listenersPaired w -> (dragInProgress w -> dragStyles w) ->
  dragInProgress (run SP inputs w) -> dragStyles (run SP inputs w).
Proof.
  revert w. induction inputs as [|i inputs IH]; intros w P S; cbn; [exact S|].
  apply IH; [now apply step_paired|].
  intros H. now apply step_styles.
Qed.

(** X12: the styles on the page follow the drag, but not its teardown: on every
    reachable state with a drag in progress, text selection is off and the
    cursor is the resize cursor; a release puts both back; removing the
    component in the middle of the drag leaves both as they are, and no
    later pointer event on the document puts them back. *)
Theorem page_styles_follow_the_drag
  (SP : SplitPaneConstants) (inputs later : list Input) :
  let w := run SP inputs (initialWorld SP) in
  let torn := step SP Disconnected w in
  dragInProgress w ->
  forallb pointerEvent later = true ->
  dragStyles w
  /\ userSelect (step SP DocumentMouseUp w) = ""
  /\ cursor (step SP DocumentMouseUp w) = ""
  /\ dragStyles torn
  /\ dragStyles (run SP later torn).
Proof.
  intros w torn P Hl.
  assert (S : dragStyles w).
  { apply run_styles; [now left| |exact P].
    intros [D _]. discriminate. }
  assert (T : dragStyles torn).
  { unfold torn. rewrite step_disconnected. exact S. }
  split; [exact S|]. split; [|split; [|split; [exact T|]]].
  - now rewrite step_release.
  - now rewrite step_release.
  - rewrite run_without_listeners; [exact T|exact Hl|].
    unfold torn. rewrite step_disconnected. cbn.
    apply documentListeners_after_remove. right. apply P.
Qed.

Lemma page_styles_follow_the_drag_witness :
  let w := run sampleConstants
               [Connected; DividerMouseDown (samplePage 1004) 300;
                DocumentMouseMove 450]
               (initialWorld sampleConstants) in
  let torn := step sampleConstants Disconnected w in
  dragStyles w
  /\ userSelect (step sampleConstants DocumentMouseUp w) = ""
  /\ cursor (step sampleConstants DocumentMouseUp w) = ""
  /\ dragStyles torn
  /\ dragStyles (run sampleConstants [DocumentMouseMove 10; DocumentMouseUp] torn).
Proof.
  exact (page_styles_follow_the_drag sampleConstants
           [Connected; DividerMouseDown (samplePage 1004) 300;
            DocumentMouseMove 450]
           [DocumentMouseMove 10; DocumentMouseUp]
           (conj eq_refl eq_refl) eq_refl).
Defined.

End BodyStyles.

(** ** The refit of the terminals *)

Section Refit.

Import SplitPaneContainer Spec Traces.

Lemma refitCallback_defined (dom : Dom) (qs : list SplitPane) :
  refitCallback dom (map Some qs) =
    (map sessionId (filter (paneFound dom) qs), false).
Proof.
  induction qs as [|q qs IH]; cbn [map refitCallback filter]; [reflexivity|].
  rewrite IH. now destruct (paneFound dom q).
Qed.

(** X13: the animation frame of a refit resizes the terminals of the panes
    whose element is found, in pane order, and of no other session; unlike
    the focus arbiter, which skips an undefined pane, the refit loop stops
    at one with a TypeError, so the panes after it are not resized. *)
Theorem refit_stops_at_an_undefined_pane
  (dom : Dom) (qs : list SplitPane) (rest : list (option SplitPane))
  (active : Z) (target : Node) (i : nat) :
  refitCallback dom (map Some qs) =
    (map sessionId (filter (paneFound dom) qs), false)
  /\ refitCallback dom (map Some qs ++ None :: rest) =
       (map sessionId (filter (paneFound dom) qs), true)
  /\ paneLoop dom active target i (None :: rest) =
       paneLoop dom active target (S i) rest.
Proof.
  split; [apply refitCallback_defined|]. split; [|reflexivity].
  induction qs as [|q qs IH]; cbn [map app refitCallback filter];
    [reflexivity|].
  rewrite IH. now destruct (paneFound dom q).
Qed.

End Refit.

(** ** What the container renders *)

Section Rendering.

Import SplitPaneContainer Spec SplitPaneRender.

Lemma render_cases (SP : SplitPaneConstants) (pt : PassThrough) (c : Component) :
  (exists (l r : SplitPane) (v : SplitView),
      nth_error (panes c) 0 = Some (Some l)
      /\ nth_error (panes c) 1 = Some (Some r)
      /\ render SP pt c = Some v
      /\ pv_id (leftView v) = ("split-pane-" ++ sessionId l)%string
      /\ pv_id (rightView v) = ("split-pane-" ++ sessionId r)%string
      /\ pv_active (leftView v) = Z.eqb (activePaneIndex c) 0
      /\ pv_active (rightView v) = Z.eqb (activePaneIndex c) 1
      /\ sv_keyboardCaptureActive (pv_view (leftView v)) =
           Z.eqb (activePaneIndex c) 0 && keyboardCaptureActive pt
      /\ sv_keyboardCaptureActive (pv_view (rightView v)) =
           Z.eqb (activePaneIndex c) 1 && keyboardCaptureActive pt
      /\ sv_showSidebarToggle (pv_view (rightView v)) = false)
  \/ (render SP pt c = None
      /\ forall l r : SplitPane,
          ~ (nth_error (panes c) 0 = Some (Some l)
             /\ nth_error (panes c) 1 = Some (Some r))).
Proof.
  unfold render.
  destruct (panes c) as [|[l|] [|[r|] rest]]; cbn;
    try (right; split; [reflexivity|]; intros l' r' [A B]; discriminate).
  left. exists l, r. eexists. repeat split.
Qed.

(** X14: the rendered split gives the keyboard to at most one pane: a pane
    captures the keyboard only if it is the one marked active and the
    container's own capture flag is set; the two panes are never both marked
    active, and with an active index other than 0 or 1 neither pane is
    marked or captures.  The ids of the pane elements are the ones that the
    focus arbiter and the refit look up, the right pane never shows the
    sidebar toggle, and panes after the second play no part. *)
Theorem render_gives_the_keyboard_to_one_pane
  (SP : SplitPaneConstants) (pt : PassThrough) (c : Component) (v : SplitView) :
  render SP pt c = Some v ->
  let captures (p : PaneView) := sv_keyboardCaptureActive (pv_view p) in
  (exists l r : SplitPane,
      nth_error (panes c) 0 = Some (Some l)
      /\ nth_error (panes c) 1 = Some (Some r)
      /\ ("#" ++ pv_id (leftView v))%string = paneSelector (sessionId l)
      /\ ("#" ++ pv_id (rightView v))%string = paneSelector (sessionId r))
  /\ pv_active (leftView v) && pv_active (rightView v) = false
  /\ captures (leftView v) && captures (rightView v) = false
  /\ (captures (leftView v) = true ->
      pv_active (leftView v) = true /\ keyboardCaptureActive pt = true)
  /\ (captures (rightView v) = true ->
      pv_active (rightView v) = true /\ keyboardCaptureActive pt = true)
  /\ (activePaneIndex c <> 0%Z -> activePaneIndex c <> 1%Z ->
      pv_active (leftView v) = false /\ pv_active (rightView v) = false
      /\ captures (leftView v) = false /\ captures (rightView v) = false)
  /\ sv_showSidebarToggle (pv_view (rightView v)) = false
  /\ render SP pt (set_panes (firstn 2 (panes c)) c) = Some v.
Proof.
  intros Hr captures. unfold captures.
  destruct (render_cases SP pt c)
    as [(l & r & v' & Nl & Nr & Hv & Il & Ir & Al & Ar & Kl & Kr & T)|[Hn _]];
    [|congruence].
  assert (v' = v) by congruence. subst v'.
  rewrite Al, Ar, Kl, Kr, T.
  split; [exists l, r; rewrite Il, Ir; auto|].
  assert (Hex : Z.eqb (activePaneIndex c) 0 && Z.eqb (activePaneIndex c) 1
                = false).
  { destruct (Z.eqb_spec (activePaneIndex c) 0) as [->|]; reflexivity. }
  split; [exact Hex|]. split; [|split; [|split; [|split; [|split]]]].
  - destruct (Z.eqb (activePaneIndex c) 0), (Z.eqb (activePaneIndex c) 1),
      (keyboardCaptureActive pt); try reflexivity; discriminate.
  - intros H. apply andb_prop in H. exact H.
  - intros H. apply andb_prop in H. exact H.
  - intros H0 H1. apply Z.eqb_neq in H0, H1. rewrite H0, H1. auto.
  - reflexivity.
  - rewrite <- Hr. unfold render. cbn.
    destruct (panes c) as [|a [|b rest]]; reflexivity.
Qed.

Lemma render_gives_the_keyboard_to_one_pane_witness :
  let c := mkComponent samplePanes 1%Z 0.5%float false 0%float 0%float 0%float in
  let pt := mkPassThrough false true false false true in
  exists v : SplitView,
    render sampleConstants pt c = Some v
    /\ sv_keyboardCaptureActive (pv_view (leftView v))
       && sv_keyboardCaptureActive (pv_view (rightView v)) = false
    /\ sv_keyboardCaptureActive (pv_view (rightView v)) = true
    /\ ("#" ++ pv_id (rightView v))%string = paneSelector "b".
Proof.
  intros c pt.
  destruct (render sampleConstants pt c) as [v|] eqn:E; [|discriminate].
  exists v.
  destruct (render_gives_the_keyboard_to_one_pane sampleConstants pt c v E)
    as (_ & _ & K & _).
  split; [reflexivity|]. split; [exact K|].
  injection E as <-. split; reflexivity.
Defined.

End Rendering.

(** ** The drag-and-drop protocol of the session cards *)

Section DragAndDrop.

Import CompactSessionCard Spec.

Lemma includes_setData (format data : string) (its : list (string * string)) :
  includes format (map fst (setData format data its)) = true.
Proof.
  unfold includes. induction its as [|[k v] its IH]; cbn.
  - now rewrite String.eqb_refl.
  - destruct (String.eqb k format) eqn:E; cbn.
    + now rewrite String.eqb_sym, E.
    + now rewrite IH, orb_true_r.
Qed.

Lemma getData_setData_other (format other data : string)
      (its : list (string * string)) :
  other <> format ->
  getData other (setData format data its) = getData other its.
Proof.
  intros Hne. induction its as [|[k v] its IH]; cbn.
  - apply String.eqb_neq in Hne. rewrite String.eqb_sym in Hne.
    now rewrite Hne.
  - destruct (String.eqb k format) eqn:E; cbn.
    + apply String.eqb_eq in E. subst k.
      assert (F : String.eqb format other = false)
        by (apply String.eqb_neq; congruence).
      now rewrite F.
    + destruct (String.eqb k other); [reflexivity|exact IH].
Qed.

(** X15: a drag that a session card started is accepted by every card it passes
    over, the card it started from included; a drag without a transfer, or
    with nothing under the split key, is not accepted and leaves card and
    event as they are. *)
Theorem drag_over_accepts_card_drags
  (e : DragEvent) (source target : Card) :
  (forall dt : DataTransfer,
      dataTransfer e = Some dt ->
      let over := handleDragOver (snd (handleDragStart e source)) target in
      snd over = true
      /\ isDragOver (fst (fst over)) = true
      /\ session (fst (fst over)) = session target
      /\ option_map dropEffect (dataTransfer (snd (fst over))) = Some "move")
  /\ (dataTransfer e = None
      \/ (exists dt, dataTransfer e = Some dt
                     /\ includes sessionIdFormat (types dt) = false) ->
      handleDragOver e target = (target, e, false)).
Proof.
  split.
  - intros dt Hdt. cbn zeta. unfold handleDragStart. rewrite Hdt.
    unfold handleDragOver. cbn [snd dataTransfer]. unfold types.
    cbn [items]. rewrite includes_setData. cbn. auto.
  - intros [H|(dt & H & Hi)]; unfold handleDragOver; rewrite H;
      [reflexivity|]. now rewrite Hi.
Qed.

Lemma drag_over_accepts_card_drags_witness :
  let cardA := mkCard (mkSession "A" "one" "running") false "running" false false in
  let e := mkDragEvent (Some (mkDataTransfer [("text/plain", "hello")] "" "")) in
  snd (handleDragOver (snd (handleDragStart e cardA)) cardA) = true
  /\ handleDragOver e cardA = (cardA, e, false)
  /\ handleDragOver (mkDragEvent None) cardA = (cardA, mkDragEvent None, false).
Proof.
  intros cardA e.
  destruct (drag_over_accepts_card_drags e cardA cardA) as [A R].
  destruct (drag_over_accepts_card_drags (mkDragEvent None) cardA cardA)
    as [_ R'].
  split; [exact (proj1 (A _ eq_refl))|]. split.
  - apply R. right. eexists. split; reflexivity.
  - apply R'. now left.
Defined.

(** X16: from drag start to drop: the card that starts the drag stores its
    session id under the split key and leaves what the transfer holds under
    other formats; the drop on another card then requests the split of the
    two sessions, the drop on the starting card itself requests nothing;
    drag end clears the mark of the dragged card again. *)
Theorem drag_start_to_drop
  (e : DragEvent) (dt : DataTransfer) (source target : Card) :
  dataTransfer e = Some dt ->
  let started := handleDragStart e source in
  draggedSessionId (snd started) = Some (id (session source))
  /\ (forall other : string,
         other <> sessionIdFormat ->
         option_map (fun d => getData other (items d))
                    (dataTransfer (snd started))
         = Some (getData other (items dt)))
  /\ (id (session source) <> "" ->
      id (session source) <> id (session target) ->
      snd (handleDrop (snd started) target) =
        [splitWithSession (id (session source)) (id (session target))])
  /\ snd (handleDrop (snd started) source) = []
  /\ dragged (fst started) = true
  /\ handleDragEnd (fst started) = set_dragged false source.
Proof.
  intros Hdt started.
  assert (Es : started =
               (set_dragged true source,
                mkDragEvent
                  (Some (mkDataTransfer
                           (setData sessionIdFormat (id (session source))
                                    (items dt))
                           "move" (dropEffect dt)))))
    by (unfold started, handleDragStart; now rewrite Hdt).
  assert (Ed : draggedSessionId (snd started) = Some (id (session source))).
  { rewrite Es. unfold draggedSessionId. cbn [snd dataTransfer items].
    now rewrite getData_setData. }
  split; [exact Ed|]. split; [|split; [|split; [|split]]].
  - intros other Hne. rewrite Es. cbn [snd dataTransfer option_map items].
    now rewrite getData_setData_other.
  - intros Hne Hdiff. unfold started. now apply (drag_then_drop e dt).
  - unfold handleDrop. rewrite Ed. rewrite String.eqb_refl.
    now destruct (String.eqb (id (session source)) "").
  - now rewrite Es.
  - now rewrite Es.
Qed.

Lemma drag_start_to_drop_witness :
  let cardA := mkCard (mkSession "A" "one" "running") false "running" false false in
  let cardB := mkCard (mkSession "B" "two" "exited") true "exited" false false in
  let e := mkDragEvent (Some (mkDataTransfer [("text/plain", "hello")] "" "")) in
  let started := handleDragStart e cardA in
  draggedSessionId (snd started) = Some "A"
  /\ option_map (fun d => getData "text/plain" (items d))
                (dataTransfer (snd started)) = Some "hello"
  /\ snd (handleDrop (snd started) cardB) = [splitWithSession "A" "B"]
  /\ snd (handleDrop (snd started) cardA) = []
  /\ handleDragEnd (fst started) = cardA.
Proof.
  intros cardA cardB e started.
  destruct (drag_start_to_drop e _ cardA cardB eq_refl)
    as (D & O & S & Self & _ & End).
  split; [exact D|]. split; [apply O; discriminate|].
  split; [apply S; discriminate|]. split; [|exact End].
  destruct (drag_start_to_drop e _ cardA cardA eq_refl)
    as (_ & _ & _ & Self' & _). exact Self'.
Defined.

End DragAndDrop.

(** ** The buttons and the dots of the cards *)

Section Indicators.

Import CompactSessionCard CompactSessionCardView Spec.

(** X17: the delete button says what its click does: it is titled
    [Clean up session] exactly when a successful deletion raises
    [session-cleanup], and [Kill Session] exactly when it raises
    [session-delete]; both follow the session's status alone, not the kind
    of the card. *)
Theorem delete_button_says_what_it_does (c : Card) :
  (snd (renderDeleteButton c) = "Clean up session"
   /\ handleDelete (fun _ => [onSuccess]) c =
        [customEvent "session-cleanup" (SessionIdDetail (id (session c)))]
   /\ status (session c) = "exited")
  \/ (snd (renderDeleteButton c) = "Kill Session"
      /\ handleDelete (fun _ => [onSuccess]) c =
           [customEvent "session-delete" (SessionIdDetail (id (session c)))]
      /\ status (session c) <> "exited").
Proof.
  unfold renderDeleteButton, handleDelete. cbn.
  destruct (String.eqb_spec (status (session c)) "exited") as [E|E];
    [left|right]; auto.
Qed.

(** X18: the dot of a session card and the dot of a split group: a card shows
    the warning dot for an exited session and the success dot for every
    other status.  For two sessions that are each running or exited, the
    group colour is success exactly when both cards show success, and error
    exactly when both show warning.  A session that is neither running nor
    exited shows success on its card yet counts as not running for the
    group. *)
Theorem status_dots_and_group_colour (a b : Card) (m : SplitGroupCard.Mode)
        (g : string) :
  let group :=
    SplitGroupCard.getGroupStatusColor
      (SplitGroupCard.mkCard (Some (session a)) (Some (session b)) m g) in
  let settled (c : Card) :=
    status (session c) = "running" \/ status (session c) = "exited" in
  (settled a -> settled b ->
   (group = Some "bg-status-success" <->
    renderStatusIndicator a = "bg-status-success"
    /\ renderStatusIndicator b = "bg-status-success")
   /\ (group = Some "bg-status-error" <->
       renderStatusIndicator a = "bg-status-warning"
       /\ renderStatusIndicator b = "bg-status-warning"))
  /\ (status (session a) <> "running" -> status (session a) <> "exited" ->
      renderStatusIndicator a = "bg-status-success"
      /\ group <> Some "bg-status-success").
Proof.
  intros group settled. unfold settled, group, renderStatusIndicator,
    SplitGroupCard.getGroupStatusColor. cbn. split.
  - intros [Ha|Ha] [Hb|Hb]; rewrite Ha, Hb; cbn;
      repeat split; intros; try congruence; try tauto;
      destruct H; discriminate.
  - intros Hr He. apply String.eqb_neq in Hr, He. rewrite Hr, He. cbn.
    split; [reflexivity|].
    destruct (String.eqb (status (session b)) "running"); discriminate.
Qed.

Lemma status_dots_and_group_colour_witness :
  let starting := mkCard (mkSession "s" "one" "starting") false "running" false false in
  let live := mkCard (mkSession "t" "two" "running") false "running" false false in
  renderStatusIndicator starting = "bg-status-success"
  /\ renderStatusIndicator live = "bg-status-success"
  /\ SplitGroupCard.getGroupStatusColor
       (SplitGroupCard.mkCard (Some (session starting)) (Some (session live))
                              SplitGroupCard.persisted "g1")
     = Some "bg-status-warning".
Proof.
  intros starting live.
  destruct (status_dots_and_group_colour starting live
              SplitGroupCard.persisted "g1") as [_ H].
  split; [apply H; discriminate|]. split; reflexivity.
Defined.

End Indicators.

(** ** The split group card, continued *)

Section GroupCardMore.

Import SplitGroupCard Spec.

(** X19: the two-mode card in active mode is the one-mode card: it renders the
    same controls in the same order, and a click on a control has the same
    outcome on both, whatever the group id and whether or not the sessions
    are set. *)
Theorem active_mode_is_the_one_mode_card
  (c : SplitGroupCardV1.Card) (ctl : SplitGroupCardV1.Control) (g : string) :
  let card := SplitGroupCardV1.onTwoModeCard c active g in
  controls (render card) =
    map SplitGroupCardV1.sameControl (SplitGroupCardV1.render c)
  /\ click (SplitGroupCardV1.sameControl ctl) card =
       SplitGroupCardV1.click ctl c
  /\ handlerOf (SplitGroupCardV1.sameControl ctl) card =
       SplitGroupCardV1.handlerOf ctl c.
Proof.
  destruct c as [[l|] [r|]], ctl; cbn; repeat split.
Qed.

(** X20: a click never fails: on every card and control, also with unset
    sessions, the click returns, with at most one event.  The handlers of
    the names and of unsplit do fail on their own when their session is
    unset; the render guard keeps clicks away from them. *)
Theorem clicks_never_fail (c : Card) (ctl : Control) :
  (exists evs : list CustomEvent,
      click ctl c = Some evs /\ List.length evs <= 1)
  /\ (handleClickLeft c = None <-> leftSession c = None)
  /\ (handleClickRight c = None <-> rightSession c = None)
  /\ (handleUnsplit c = None <-> leftSession c = None)
  /\ (leftSession c = None \/ rightSession c = None ->
      controls (render c) = [] /\ click ctl c = Some []).
Proof.
  split; [|split; [|split; [|split]]].
  - unfold click, render, handleClickLeft, handleClickRight, handleUnsplit,
      handleRestoreClick.
    destruct c as [[l|] [r|] [] g], ctl; cbn;
      try (eexists; split; [reflexivity|cbn; lia]).
    unfold handleRestoreClick. cbn.
    destruct (String.eqb g ""); eexists; (split; [reflexivity|cbn; lia]).
  - unfold handleClickLeft. destruct (leftSession c); split; congruence.
  - unfold handleClickRight. destruct (rightSession c); split; congruence.
  - unfold handleUnsplit. destruct (leftSession c); split; congruence.
  - unfold click, render.
    intros [H|H]; rewrite H; [|destruct (leftSession c)]; auto.
Qed.

Lemma clicks_never_fail_witness :
  let half := mkCard (Some (sampleSession "a")) None active "" in
  handleClickRight half = None
  /\ click RightName half = Some []
  /\ controls (render half) = [].
Proof.
  intros half.
  destruct (clicks_never_fail half RightName) as (_ & _ & R & _ & G).
  split; [apply R; reflexivity|].
  destruct G as [Gc Gk]; [now right|]. split; [exact Gk|exact Gc].
Defined.

(** X21: what a click can raise: in active mode a focus request for the left or
    the right session, or the unsplit request with the left session's id;
    in persisted mode nothing but the restore request with the card's
    non-empty group id.  So every event carries an id of the card itself,
    and a persisted card never raises [unsplit] or [split-session-focus]. *)
Theorem click_events_carry_the_cards_ids
  (c : Card) (ctl : Control) (evs : list CustomEvent) (ev : CustomEvent) :
  click ctl c = Some evs -> In ev evs ->
  exists l r : Session,
    leftSession c = Some l /\ rightSession c = Some r /\ evs = [ev]
    /\ ((mode c = active
         /\ ((ctl = LeftName /\ ev = splitSessionFocus (id l))
             \/ (ctl = RightName /\ ev = splitSessionFocus (id r))
             \/ (ctl = UnsplitButton /\ ev = unsplit (id l))))
        \/ (mode c = persisted /\ ctl = PersistedRoot
            /\ groupId c <> "" /\ ev = restoreSplitGroup (groupId c))).
Proof.
  unfold click, render.
  destruct c as [[l|] [r|] m g]; cbn;
    try (intros [= <-] H; contradiction).
  destruct m, ctl; cbn; try (intros [= <-] H; contradiction).
  - intros [= <-] [<-|H]; [|contradiction]. exists l, r.
    repeat split. left. split; auto.
  - intros [= <-] [<-|H]; [|contradiction]. exists l, r.
    repeat split. left. split; auto.
  - intros [= <-] [<-|H]; [|contradiction]. exists l, r.
    repeat split. left. split; auto.
  - unfold handleRestoreClick. cbn.
    destruct (String.eqb_spec g "") as [E|E];
      intros [= <-] H; [contradiction|].
    destruct H as [<-|H]; [|contradiction]. exists l, r.
    repeat split. right. repeat split; auto.
Qed.

Lemma click_events_carry_the_cards_ids_witness :
  let stored :=
    mkCard (Some (sampleSession "a")) (Some (sampleSession "b")) persisted "g1" in
  exists l r : Session,
    leftSession stored = Some l /\ rightSession stored = Some r
    /\ [restoreSplitGroup "g1"] = [restoreSplitGroup "g1"]
    /\ ((mode stored = active
         /\ ((PersistedRoot = LeftName
              /\ restoreSplitGroup "g1" = splitSessionFocus (id l))
             \/ (PersistedRoot = RightName
                 /\ restoreSplitGroup "g1" = splitSessionFocus (id r))
             \/ (PersistedRoot = UnsplitButton
                 /\ restoreSplitGroup "g1" = unsplit (id l))))
        \/ (mode stored = persisted /\ PersistedRoot = PersistedRoot
            /\ groupId stored <> ""
            /\ restoreSplitGroup "g1" = restoreSplitGroup (groupId stored))).
Proof.
  intros stored.
  exact (click_events_carry_the_cards_ids stored PersistedRoot
           [restoreSplitGroup "g1"] (restoreSplitGroup "g1")
           eq_refl (or_introl eq_refl)).
Defined.

End GroupCardMore.
